(** * CampusConnect API: entity schemas, relationship mutators and route handlers

    A shallow embedding of the Mongoose models (Event, Club, MarketplaceListing,
    Post), of the express-validator chains and of the route handlers that
    decide the behaviour of the REST API, together with the properties of the
    specification that concern them.

    Conventions of the embedding:
    - a [Date] is its number of milliseconds since the epoch, an integer of [Z];
      the clock ([new Date()]) is the parameter [now] of a handler;
    - a JavaScript array is a [list]; [push] appends at the end, [filter] and
      [some] are the list functions, [includes] is decidable membership;
    - [findById] hands the handler [Some doc] or [None] (JavaScript [null]); a
      handler returns its response and the document as stored afterwards;
    - a rejected promise inside a handler's [try] is the 500 answer of its
      [catch] block. *)

From stdpp Require Import base decidable option list strings numbers.
From Stdlib Require Import ZArith QArith Ascii String Lia.

Local Open Scope Z_scope.

(** ** Identifiers

    [mongoose.Types.ObjectId] is library code.  The handlers use four of its
    operations: equality ([equals], and [includes] on arrays of ids), the
    constructor from a string, [toString] and the static [isValid].  The
    interface below fixes what the embedding relies upon: printing an id and
    reading it back gives the id, and the printed form of an id is a
    non-empty string that [isValid] accepts. *)

Class ObjectIdOps := {
  ObjectId : Type;
  ObjectId_eq_dec :: EqDecision ObjectId;
  isValid : string → bool;
  ObjectId_new : string → ObjectId;
  toString : ObjectId → string;
  ObjectId_new_toString : ∀ o : ObjectId, ObjectId_new (toString o) = o;
  isValid_toString : ∀ o : ObjectId, isValid (toString o) = true;
  toString_nonempty : ∀ o : ObjectId, toString o ≠ EmptyString
}.

Lemma toString_inj `{ObjectIdOps} (a b : ObjectId) :
  toString a = toString b → a = b.
Proof.
  intros E. rewrite <- (ObjectId_new_toString a), <- (ObjectId_new_toString b).
  by rewrite E.
Qed.

(** A concrete identifier type: the 24 lower-case hexadecimal digits that
    [toString] prints.  The constructor accepts either case, as the driver
    does, and normalises to lower case. *)
Module HexId.

Definition is_lower_hex (a : ascii) : bool :=
  let n := nat_of_ascii a in
  ((48 <=? n)%nat && (n <=? 57)%nat) || ((97 <=? n)%nat && (n <=? 102)%nat).

Definition to_lower (a : ascii) : ascii :=
  let n := nat_of_ascii a in
  if ((65 <=? n)%nat && (n <=? 90)%nat) then ascii_of_nat (n + 32) else a.

Fixpoint lower (s : string) : string :=
  match s with
  | EmptyString => EmptyString
  | String a r => String (to_lower a) (lower r)
  end.

Fixpoint all_lower_hex (s : string) : bool :=
  match s with
  | EmptyString => true
  | String a r => is_lower_hex a && all_lower_hex r
  end.

Definition canonical (s : string) : bool :=
  (String.length s =? 24)%nat && all_lower_hex s.

Definition t : Type := { s : string | canonical s = true }.

Definition zeros : string := "000000000000000000000000".

Definition zero : t := exist _ zeros eq_refl.

Definition hex_valid (s : string) : bool := canonical (lower s).

Definition of_string (s : string) : t :=
  match bool_dec (canonical (lower s)) true with
  | left H => exist _ (lower s) H
  | right _ => zero
  end.

Definition to_string (o : t) : string := proj1_sig o.

Lemma to_lower_hex (a : ascii) : is_lower_hex a = true → to_lower a = a.
Proof.
  destruct a as [[] [] [] [] [] [] [] []]; vm_compute; congruence.
Qed.

Lemma lower_hex (s : string) : all_lower_hex s = true → lower s = s.
Proof.
  induction s as [|a r IH]; simpl; [done|].
  intros [Ha Hr]%andb_true_iff. by rewrite (to_lower_hex a Ha), IH.
Qed.

Lemma lower_canonical (s : string) : canonical s = true → lower s = s.
Proof.
  unfold canonical. intros [_ Hs]%andb_true_iff. by apply lower_hex.
Qed.

Lemma of_to_string (o : t) : of_string (to_string o) = o.
Proof.
  destruct o as [s Hs]. unfold of_string, to_string. simpl.
  destruct (bool_dec (canonical (lower s)) true) as [H|H].
  - apply (sig_eq_pi _). simpl. by apply lower_canonical.
  - rewrite (lower_canonical s Hs) in H. done.
Qed.

Lemma valid_to_string (o : t) : hex_valid (to_string o) = true.
Proof.
  destruct o as [s Hs]. unfold hex_valid, to_string. simpl.
  by rewrite (lower_canonical s Hs).
Qed.

Lemma to_string_nonempty (o : t) : to_string o ≠ EmptyString.
Proof.
  destruct o as [s Hs]. unfold to_string. simpl. intros ->. done.
Qed.

#[export] Instance ops : ObjectIdOps := {|
  ObjectId := t;
  isValid := hex_valid;
  ObjectId_new := of_string;
  toString := to_string;
  ObjectId_new_toString := of_to_string;
  isValid_toString := valid_to_string;
  toString_nonempty := to_string_nonempty
|}.

(** Three identifiers used by the examples. *)
Definition alice : t := of_string "64f8a8b4c5d2e1f2a3b4c5d6".
Definition bob : t := of_string "64f8a8b4c5d2e1f2a3b4c5d7".
Definition carol : t := of_string "64F8A8B4C5D2E1F2A3B4C5D8".

Example carol_prints_lower : to_string carol = "64f8a8b4c5d2e1f2a3b4c5d8".
Proof. reflexivity. Qed.

Lemma alice_bob : alice ≠ bob.
Proof. intros E. apply (f_equal to_string) in E. vm_compute in E. done. Qed.

Lemma alice_carol : alice ≠ carol.
Proof. intros E. apply (f_equal to_string) in E. vm_compute in E. done. Qed.

Lemma bob_carol : bob ≠ carol.
Proof. intros E. apply (f_equal to_string) in E. vm_compute in E. done. Qed.

End HexId.

(** ** HTTP answers

    The status codes the handlers send, and the error kinds of the
    specification they stand for. *)

Inductive HttpStatus :=
  | OK200 | Created201 | BadRequest400 | NotFound404 | Conflict409
  | InternalError500.

#[global] Instance HttpStatus_eq_dec : EqDecision HttpStatus.
Proof. solve_decision. Defined.

Inductive ErrorKind := ValidationError | NotFound | Conflict | InternalError.

Definition errorKind (s : HttpStatus) : option ErrorKind :=
  match s with
  | OK200 | Created201 => None
  | BadRequest400 => Some ValidationError
  | NotFound404 => Some NotFound
  | Conflict409 => Some Conflict
  | InternalError500 => Some InternalError
  end.

(** The values the handlers put in the [data] of an answer. *)
Inductive Json :=
  | JNumber (n : Z)
  | JBool (b : bool).

(** The envelope [{success, message, data}] of an answer; [data] lists the
    fields of the object the handler sends, and is empty when it sends none.
    The routers without validation send [{error}] or [{message, ...}]
    without the envelope: [message] then holds that text and [data] the
    other fields. *)
Record Response := mkResponse {
  status : HttpStatus;
  message : string;
  data : list (string * Json)
}.

Definition success (r : Response) : bool :=
  match errorKind (status r) with None => true | Some _ => false end.

(** [array.length] as a JSON number. *)
Definition count {A} (l : list A) : Json := JNumber (Z.of_nat (List.length l)).

(** Result of [doc.save()] and of the other calls that run schema validators:
    the stored document, or Mongoose's [ValidationError] with its message. *)
Inductive Saved (A : Type) :=
  | Stored (doc : A)
  | Invalid (msg : string).
Arguments Stored {A} _.
Arguments Invalid {A} _.

(** ** Strings

    [String.prototype.trim] on the whitespace characters of ASCII, and the
    length of a string in characters. *)

Definition is_whitespace (a : ascii) : bool :=
  let n := nat_of_ascii a in
  (n =? 32)%nat || ((9 <=? n)%nat && (n <=? 13)%nat).

Fixpoint trimStart (s : string) : string :=
  match s with
  | EmptyString => EmptyString
  | String a r => if is_whitespace a then trimStart r else s
  end.

Definition trim (s : string) : string :=
  String.rev (trimStart (String.rev (trimStart s))).

Definition strlen (s : string) : Z := Z.of_nat (String.length s).

(** [n] copies of the character [a]. *)
Fixpoint repeat_char (a : ascii) (n : nat) : string :=
  match n with
  | O => EmptyString
  | S k => String a (repeat_char a k)
  end.

(** [String.prototype.toLowerCase] on ASCII. *)
Definition toLowerCase (s : string) : string := HexId.lower s.

(** [s] without the prefix [p], when it starts with it. *)
Fixpoint stripPrefix (p s : string) : option string :=
  match p with
  | EmptyString => Some s
  | String a p' =>
      match s with
      | EmptyString => None
      | String b s' => if Ascii.eqb a b then stripPrefix p' s' else None
      end
  end.

(** [s] without the suffix [suffix], when it ends with it. *)
Definition stripSuffix (suffix s : string) : option string :=
  match stripPrefix (String.rev suffix) (String.rev s) with
  | Some r => Some (String.rev r)
  | None => None
  end.

(** No character of [s] is a line terminator (which [.] does not match). *)
Fixpoint noLineTerminator (s : string) : bool :=
  match s with
  | EmptyString => true
  | String a r =>
      let n := nat_of_ascii a in
      negb ((n =? 10)%nat || (n =? 13)%nat) && noLineTerminator r
  end.

(** [/^https?:\/\/.+\.(jpg|jpeg|png|webp|gif)$/i.test(url)]: after the
    scheme, a non-empty part without line terminators, then a dot and one of
    the five extensions at the end of the string; letters in either case. *)
Definition imageUrlPattern (url : string) : bool :=
  let l := toLowerCase url in
  let rest := match stripPrefix "https://" l with
              | Some r => Some r
              | None => stripPrefix "http://" l
              end in
  match rest with
  | None => false
  | Some r =>
      existsb
        (λ extension,
           match stripSuffix (String "." extension) r with
           | Some middle =>
               negb (bool_decide (middle = EmptyString)) && noLineTerminator middle
           | None => false
           end)
        ["jpg"; "jpeg"; "png"; "webp"; "gif"]%string
  end.

(** ** Request validation helpers (middleware/validation.ts)

    [validateObjectId(field)] and [validateRequiredObjectId(field)], and the
    answer of [handleValidationErrors] when a chain has failed. *)

Definition validateObjectId `{ObjectIdOps} (value : string) : bool :=
  isValid value.

Definition validateRequiredObjectId `{ObjectIdOps} (value : string) : bool :=
  negb (bool_decide (value = EmptyString)) && isValid value.

Definition validationFailed : Response :=
  mkResponse BadRequest400 "Validation failed" [].

(** [doc.populate(path, ...)] on an array of user references, for the
    [users] of the User collection: the references without a User document
    are left out of the populated array. *)
Definition populate `{ObjectIdOps} (users : list ObjectId) (ids : list ObjectId)
  : list ObjectId :=
  filter (λ id, id ∈ users) ids.

(** Whether [validationResult(req)] holds an error for [field]. *)
Definition fieldFails (field : string) (errors : list (string * string)) : bool :=
  existsb (λ e, bool_decide (fst e = field)) errors.

(** ** Clubs (models/Club.ts, api/clubs.ts, routes/clubs.ts) *)

Module ClubModel.
Section WithIds.
Context `{ObjectIdOps}.

Record Club := mkClub {
  name : string;
  description : option string;
  members : list ObjectId;
  officers : list ObjectId
}.

(** The paths of [ClubSchema]. *)
Inductive ClubPath := name_path | description_path | members_path | officers_path.

(** [this.members.includes(id)] *)
Definition includes (l : list ObjectId) (id : ObjectId) : bool :=
  bool_decide (id ∈ l).

(** The validators [ClubSchema] declares on a path; [None] when they pass,
    otherwise the message of the first that fails.  [members] declares
    none; each element of [officers] is checked by
    [this.members.includes(officerId)]. *)
Definition validatePath (this : Club) (p : ClubPath) : option string :=
  match p with
  | name_path =>
      if bool_decide (name this = EmptyString) then Some "Club name is required"%string
      else if 100 <? strlen (name this)
           then Some "Club name cannot exceed 100 characters"%string
           else None
  | description_path =>
      match description this with
      | Some d => if 1000 <? strlen d
                  then Some "Description cannot exceed 1000 characters"%string
                  else None
      | None => None
      end
  | members_path => None
  | officers_path =>
      if forallb (includes (members this)) (officers this) then None
      else Some "Officers must be members of the club"%string
  end.

Fixpoint validatePaths (this : Club) (ps : list ClubPath) : option string :=
  match ps with
  | [] => None
  | p :: r => match validatePath this p with
              | Some msg => Some msg
              | None => validatePaths this r
              end
  end.

(** [this.validateSync()]: the validators of every path of the schema. *)
Definition validateSync (this : Club) : option string :=
  validatePaths this [name_path; description_path; members_path; officers_path].

(** [this.save()] of a document read from the collection, running the
    validators of the paths [written] (for an array with an element
    validator, on each of its elements).  Mongoose validates the paths of
    the document; the methods below assign [members] and [officers] only
    and have both validated, while [name] and [description] are taken as the
    collection stored them.  The properties of the routes are stated for
    clubs that satisfy [validateSync], where this makes no difference. *)
Definition save (written : list ClubPath) (this : Club) : Saved Club :=
  match validatePaths this written with
  | Some msg => Invalid msg
  | None => Stored this
  end.

(** The body of a create request; identifiers travel as strings. *)
Record ClubBody := mkClubBody {
  body_name : option string;
  body_description : option string;
  body_members : list string;
  body_officers : list string
}.

(** Casting an array of strings to [ObjectId]s; a string that is not an
    identifier makes the cast, and with it validation, fail. *)
Definition castIds (l : list string) : option (list ObjectId) :=
  if forallb isValid l then Some (map ObjectId_new l) else None.

(** [new Club(req.body)] followed by [club.save()]: the body is cast to
    the schema ([name] is trimmed), then every path is validated.  The
    unique index on [name] belongs to the collection and is not part of
    this single-document model. *)
Definition createClub (body : ClubBody) : Saved Club :=
  match castIds (body_members body), castIds (body_officers body) with
  | Some ms, Some os =>
      let this := {| name := trim (default EmptyString (body_name body));
                     description := body_description body;
                     members := ms;
                     officers := os |} in
      match validatePaths this [name_path; description_path; members_path; officers_path] with
      | Some msg => Invalid msg
      | None => Stored this
      end
  | _, _ => Invalid "Cast to ObjectId failed"
  end.

(** *** The instance methods of [ClubSchema] *)

Definition addMember (userId : ObjectId) (this : Club) : Saved Club :=
  let this :=
    if negb (includes (members this) userId)
    then {| name := name this; description := description this;
            members := members this ++ [userId]; officers := officers this |}
    else this in
  save [members_path; officers_path] this.

Definition removeMember (userId : ObjectId) (this : Club) : Saved Club :=
  let this := {| name := name this; description := description this;
                 members := filter (λ memberId, memberId ≠ userId) (members this);
                 officers := officers this |} in
  let this := {| name := name this; description := description this;
                 members := members this;
                 officers := filter (λ officerId, officerId ≠ userId) (officers this) |} in
  save [members_path; officers_path] this.

Definition addOfficer (userId : ObjectId) (this : Club) : Saved Club :=
  let this :=
    if negb (includes (members this) userId)
    then {| name := name this; description := description this;
            members := members this ++ [userId]; officers := officers this |}
    else this in
  let this :=
    if negb (includes (officers this) userId)
    then {| name := name this; description := description this;
            members := members this; officers := officers this ++ [userId] |}
    else this in
  save [members_path; officers_path] this.

Definition removeOfficer (userId : ObjectId) (this : Club) : Saved Club :=
  let this := {| name := name this; description := description this;
                 members := members this;
                 officers := filter (λ officerId, officerId ≠ userId) (officers this) |} in
  save [members_path; officers_path] this.

(** The mutator calls of a club's life, after its creation. *)
Inductive Mutator :=
  | AddMember (userId : ObjectId)
  | RemoveMember (userId : ObjectId)
  | AddOfficer (userId : ObjectId)
  | RemoveOfficer (userId : ObjectId).

Definition call (m : Mutator) (this : Club) : Saved Club :=
  match m with
  | AddMember u => addMember u this
  | RemoveMember u => removeMember u this
  | AddOfficer u => addOfficer u this
  | RemoveOfficer u => removeOfficer u this
  end.

(** The clubs the collection can hold when it is written by creation and
    by the four mutators only. *)
Inductive reachable : Club → Prop :=
  | reachable_create body c :
      createClub body = Stored c → reachable c
  | reachable_call m c c' :
      reachable c → call m c = Stored c' → reachable c'.

(** *** Request validation (validation/clubs.ts) *)

Definition validateLeaveClub (id userId : string) : bool :=
  validateObjectId id && validateRequiredObjectId userId.


(** *** Routes of the router with validation (routes/clubs.ts)

    [found] is the result of [Club.findById(id)]. *)

(** DELETE /api/clubs/:id/leave *)
Definition leaveClub (id userId : string) (found : option Club)
  : Response * option Club :=
  if negb (validateLeaveClub id userId) then (validationFailed, found) else
  if negb (isValid id) then
    (mkResponse BadRequest400 "Invalid club ID format" [], found) else
  if bool_decide (userId = EmptyString) || negb (isValid userId) then
    (mkResponse BadRequest400 "Valid user ID is required in request body" [], found) else
  match found with
  | None => (mkResponse NotFound404 "Club not found" [], found)
  | Some club =>
      let isMember :=
        existsb (λ memberId, bool_decide (toString memberId = userId)) (members club) in
      if negb isMember then
        (mkResponse NotFound404 "User is not a member of this club" [], found)
      else
        match removeMember (ObjectId_new userId) club with
        | Stored club =>
            (mkResponse OK200 "Successfully left club"
               [("memberCount"%string, count (members club));
                ("isMember"%string, JBool false)],
             Some club)
        | Invalid _ => (mkResponse InternalError500 "Failed to leave club" [], found)
        end
  end.


(** *** Routes of the router without validation (api/clubs.ts)

    [userId] is handed to the instance method as it comes from the body;
    the method declares it an [ObjectId]. *)

(** DELETE /api/clubs/:id/leave *)
Definition leaveClub_api (userId : ObjectId) (found : option Club)
  : Response * option Club :=
  match found with
  | None => (mkResponse NotFound404 "Club not found" [], found)
  | Some club =>
      match removeMember userId club with
      | Stored club =>
          (mkResponse OK200 "Successfully left club"
             [("memberCount"%string, count (members club))],
           Some club)
      | Invalid _ => (mkResponse InternalError500 "Failed to leave club" [], found)
      end
  end.


(** The virtuals [memberCount] and [officerCount]. *)
Definition memberCount (this : Club) : nat := List.length (members this).
Definition officerCount (this : Club) : nat := List.length (officers this).

(** *** Joining (routes/clubs.ts and api/clubs.ts) *)

Definition validateJoinClub (id userId : string) : bool :=
  validateObjectId id && validateRequiredObjectId userId.

(** POST /api/clubs/:id/join of the router with validation; [users] are
    the identifiers of the User collection, and the answer counts the
    members after [populate('members')]. *)
Definition joinClub (users : list ObjectId) (id userId : string)
    (found : option Club) : Response * option Club :=
  if negb (validateJoinClub id userId) then (validationFailed, found) else
  if negb (isValid id) then
    (mkResponse BadRequest400 "Invalid club ID format" [], found) else
  if bool_decide (userId = EmptyString) || negb (isValid userId) then
    (mkResponse BadRequest400 "Valid user ID is required in request body" [], found) else
  match found with
  | None => (mkResponse NotFound404 "Club not found" [], found)
  | Some club =>
      let isAlreadyMember :=
        existsb (λ memberId, bool_decide (toString memberId = userId)) (members club) in
      if isAlreadyMember then
        (mkResponse Conflict409 "User is already a member of this club" [], found)
      else
        match addMember (ObjectId_new userId) club with
        | Stored club =>
            (mkResponse OK200 "Successfully joined club"
               [("memberCount"%string, count (populate users (members club)));
                ("isMember"%string, JBool true)],
             Some club)
        | Invalid _ => (mkResponse InternalError500 "Failed to join club" [], found)
        end
  end.

(** POST /api/clubs/:id/join of the router without validation *)
Definition joinClub_api (userId : ObjectId) (found : option Club)
  : Response * option Club :=
  match found with
  | None => (mkResponse NotFound404 "Club not found" [], found)
  | Some club =>
      if includes (members club) userId then
        (mkResponse Conflict409 "User is already a member of this club" [], found)
      else
        match addMember userId club with
        | Stored club =>
            (mkResponse OK200 "Successfully joined club"
               [("memberCount"%string, count (members club))],
             Some club)
        | Invalid _ => (mkResponse InternalError500 "Failed to join club" [], found)
        end
  end.

(** DELETE /api/clubs/:id/officers of the router without validation *)
Definition removeOfficer_api (userId : ObjectId) (found : option Club)
  : Response * option Club :=
  match found with
  | None => (mkResponse NotFound404 "Club not found" [], found)
  | Some club =>
      match removeOfficer userId club with
      | Stored club =>
          (mkResponse OK200 "Successfully removed officer"
             [("officerCount"%string, count (officers club))],
           Some club)
      | Invalid _ => (mkResponse InternalError500 "Failed to remove officer" [], found)
      end
  end.

End WithIds.
End ClubModel.


(** ** Events (models/Event.ts, validation/events.ts, api/events.ts,
    routes/events.ts) *)

(** A date field of a request body: missing, present but not an ISO 8601
    date, or a date. *)
Inductive DateField :=
  | Absent
  | NotADate
  | IsoDate (t : Z).

Module EventModel.
Section WithIds.
Context `{ObjectIdOps}.

(** [coordinates] is [locationCoords.coordinates], an array of numbers
    that Mongoose sets to the empty array when the document is given none. *)
Record Event := mkEvent {
  title : string;
  description : string;
  startTime : Z;
  endTime : Z;
  host : ObjectId;
  attendees : list ObjectId;
  coordinates : list Q
}.

(** *** The validators of [EventSchema]

    [required] on a string fails on the empty string.  The two date
    validators are the functions of the schema; the second reads
    [this.startTime], which is given here as [this_startTime]: the start time
    of the document when the validator runs on a document, and [None]
    (JavaScript [undefined]) when [this] has no such property. *)

Definition title_validators (title : string) : option string :=
  if bool_decide (title = EmptyString) then Some "Event title is required"%string
  else if 200 <? strlen title then Some "Title cannot exceed 200 characters"%string
  else None.

Definition description_validators (description : string) : option string :=
  if bool_decide (description = EmptyString)
  then Some "Event description is required"%string
  else if 2000 <? strlen description
       then Some "Description cannot exceed 2000 characters"%string
       else None.

(** [function(startTime) { return startTime > new Date(); }] *)
Definition startTime_validator (now : Z) (startTime : Z) : bool :=
  now <? startTime.

(** [function(endTime) { return endTime > this.startTime; }]; a comparison
    with [undefined] is false. *)
Definition endTime_validator (this_startTime : option Z) (endTime : Z) : bool :=
  match this_startTime with
  | Some s => s <? endTime
  | None => false
  end.

Definition startTime_validators (now : Z) (startTime : Z) : option string :=
  if startTime_validator now startTime then None
  else Some "Start time must be in the future"%string.

Definition endTime_validators (this_startTime : option Z) (endTime : Z)
  : option string :=
  if endTime_validator this_startTime endTime then None
  else Some "End time must be after start time"%string.

(** The validator of [locationCoords.coordinates]: two numbers, a longitude
    and a latitude within their bounds. *)
Definition coordinates_validator (coords : list Q) : bool :=
  match coords with
  | [longitude; latitude] =>
      Qle_bool (-180) longitude && Qle_bool longitude 180 &&
      Qle_bool (-90) latitude && Qle_bool latitude 90
  | _ => false
  end.

Definition coordinates_validators (coords : list Q) : option string :=
  if coordinates_validator coords then None
  else Some "Invalid coordinates format [longitude, latitude]"%string.

(** The first message of a list of validation outcomes. *)
Fixpoint firstError (l : list (option string)) : option string :=
  match l with
  | [] => None
  | Some msg :: _ => Some msg
  | None :: r => firstError r
  end.

(** *** Creation *)

(** The fields of a create request that the schema or the validation chain
    reads.  ([maxAttendees], [isPublic], [tags], [imageUrl] and
    [requiresApproval] are optional in the chain and unknown to the schema;
    a request is taken not to carry them, nor [locationName], [attendees]
    or a [locationCoords.type] other than the point.)  [body_coordinates]
    is [locationCoords.coordinates], empty when the body has none. *)
Record EventBody := mkEventBody {
  body_title : option string;
  body_description : option string;
  body_location : option string;
  body_startTime : DateField;
  body_endTime : DateField;
  body_host : option string;
  body_coordinates : list Q
}.

(** The validators of every path of an event, with [this] the document. *)
Definition validateEvent (now : Z) (this : Event) : option string :=
  firstError [title_validators (title this);
              description_validators (description this);
              startTime_validators now (startTime this);
              endTime_validators (Some (startTime this)) (endTime this);
              coordinates_validators (coordinates this)].

(** [event.save()]: Mongoose validates the paths of the document, those
    that were loaded as well as those that were written, at the time [now]
    of the call. *)
Definition save (now : Z) (this : Event) : Saved Event :=
  match validateEvent now this with
  | Some msg => Invalid msg
  | None => Stored this
  end.

(** [new Event(body)] followed by [event.save()]: the body is cast to the
    schema ([title] is trimmed), then the validators of every path run with
    [this] the new document. *)
Definition createEvent (now : Z) (body : EventBody) : Saved Event :=
  match body_title body, body_description body,
        body_startTime body, body_endTime body, body_host body with
  | Some t, Some d, IsoDate s, IsoDate e, Some h =>
      if negb (isValid h) then Invalid "Cast to ObjectId failed" else
      let this := {| title := trim t; description := d;
                     startTime := s; endTime := e;
                     host := ObjectId_new h; attendees := [];
                     coordinates := body_coordinates body |} in
      save now this
  | None, _, _, _, _ => Invalid "Event title is required"
  | _, None, _, _, _ => Invalid "Event description is required"
  | _, _, Absent, _, _ => Invalid "Start time is required"
  | _, _, NotADate, _, _ => Invalid "Cast to date failed"
  | _, _, _, Absent, _ => Invalid "End time is required"
  | _, _, _, NotADate, _ => Invalid "Cast to date failed"
  | _, _, _, _, None => Invalid "Event host is required"
  end.

(** [body(field).trim().isLength({ min, max })]: a missing field is
    validated as the empty string. *)
Definition isLength (min max : Z) (value : option string) : bool :=
  let n := strlen (trim (default EmptyString value)) in
  (min <=? n) && (n <=? max).

(** [validateDateTime(field)]: [isISO8601()] on a required field. *)
Definition isISO8601 (d : DateField) : bool :=
  match d with IsoDate _ => true | _ => false end.

(** [validateDateTimeAfter(field, afterField)]: [isISO8601()], then the
    custom check that throws when [value <= afterValue]. *)
Definition dateTimeAfter (value after : DateField) : option string :=
  match value with
  | IsoDate v =>
      match after with
      | IsoDate a => if v <=? a then Some "endTime must be after startTime"%string
                     else None
      | _ => None
      end
  | _ => Some "endTime must be a valid ISO 8601 datetime"%string
  end.

(** [validateCreateEvent]: the failures of the chains, as
    [(field, message)]. *)
Definition validateCreateEvent (body : EventBody) : list (string * string) :=
  (if isLength 3 100 (body_title body) then []
   else [("title", "Title must be between 3 and 100 characters")]%string) ++
  (if isLength 10 1000 (body_description body) then []
   else [("description", "Description must be between 10 and 1000 characters")]%string) ++
  (if isISO8601 (body_startTime body) then []
   else [("startTime", "startTime must be a valid ISO 8601 datetime")]%string) ++
  (match dateTimeAfter (body_endTime body) (body_startTime body) with
   | None => []
   | Some msg => [("endTime"%string, msg)]
   end) ++
  (if isLength 3 200 (body_location body) then []
   else [("location", "Location must be between 3 and 200 characters")]%string) ++
  (match body_host body with
   | None => [("host", "host is required")]%string
   | Some h =>
       if bool_decide (h = EmptyString) then [("host", "host is required")]%string
       else if isValid h then [] else [("host", "Invalid host format")]%string
   end).

(** The sanitizers of the chain: [trim()] rewrites the fields of the body. *)
Definition sanitizeCreateEvent (body : EventBody) : EventBody :=
  {| body_title := Some (trim (default EmptyString (body_title body)));
     body_description := Some (trim (default EmptyString (body_description body)));
     body_location := Some (trim (default EmptyString (body_location body)));
     body_startTime := body_startTime body;
     body_endTime := body_endTime body;
     body_host := body_host body;
     body_coordinates := body_coordinates body |}.

(** POST /api/events of the router with validation: the answer, and the
    event that was stored, if any. *)
Definition createEventRoute (now : Z) (body : EventBody)
  : Response * option Event :=
  match validateCreateEvent body with
  | _ :: _ => (validationFailed, None)
  | [] =>
      let eventData := sanitizeCreateEvent body in
      let inPast := match body_startTime eventData with
                    | IsoDate s => s <=? now
                    | _ => false
                    end in
      if inPast then
        (mkResponse BadRequest400 "Start time must be in the future" [], None)
      else
        match createEvent now eventData with
        | Stored event => (mkResponse Created201 "Event created successfully" [], Some event)
        | Invalid _ => (mkResponse BadRequest400 "Validation error" [], None)
        end
  end.

(** POST /api/events of the router without validation. *)
Definition createEvent_api (now : Z) (body : EventBody)
  : Response * option Event :=
  match createEvent now body with
  | Stored event => (mkResponse Created201 "Event created successfully" [], Some event)
  | Invalid _ => (mkResponse BadRequest400 "Validation error" [], None)
  end.

(** *** Update (PUT /api/events/:id of api/events.ts) *)

(** The fields of an update request that concern the properties below. *)
Record EventUpdate := mkEventUpdate {
  upd_title : option string;
  upd_description : option string;
  upd_startTime : DateField;
  upd_endTime : DateField
}.

(** The update validators that [runValidators: true] switches on: Mongoose
    runs the validators of the paths that the update sets, each on the new
    value of its path, and of no other path.  [this] is then the query and
    not the document, so that [this.startTime] is [undefined] in the
    validator of [endTime]. *)
Definition updateValidators (now : Z) (body : EventUpdate) : option string :=
  firstError
    [ match upd_title body with
      | Some t => title_validators (trim t)
      | None => None
      end;
      match upd_description body with
      | Some d => description_validators d
      | None => None
      end;
      match upd_startTime body with
      | IsoDate s => startTime_validators now s
      | _ => None
      end;
      match upd_endTime body with
      | IsoDate e => endTime_validators None e
      | _ => None
      end ].

(** The document after [$set] of the fields of the body. *)
Definition applyUpdate (body : EventUpdate) (event : Event) : Event :=
  {| title := match upd_title body with Some t => trim t | None => title event end;
     description := default (description event) (upd_description body);
     startTime := match upd_startTime body with
                  | IsoDate s => s
                  | _ => startTime event
                  end;
     endTime := match upd_endTime body with
                | IsoDate e => e
                | _ => endTime event
                end;
     host := host event;
     attendees := attendees event;
     coordinates := coordinates event |}.

(** A date field that cannot be cast makes the query fail with a
    [CastError] before it reaches the collection. *)
Definition castFails (body : EventUpdate) : bool :=
  match upd_startTime body, upd_endTime body with
  | NotADate, _ | _, NotADate => true
  | _, _ => false
  end.

(** [Event.findByIdAndUpdate(id, req.body, { new: true, runValidators: true })]
    inside the handler: the answer and the stored event afterwards. *)
Definition updateEvent (now : Z) (body : EventUpdate) (found : option Event)
  : Response * option Event :=
  if castFails body then
    (mkResponse InternalError500 "Failed to update event" [], found)
  else
    match updateValidators now body with
    | Some _ => (mkResponse BadRequest400 "Validation error" [], found)
    | None =>
        match found with
        | None => (mkResponse NotFound404 "Event not found" [], found)
        | Some event =>
            let event := applyUpdate body event in
            (mkResponse OK200 "Event updated successfully" [], Some event)
        end
    end.

(** [validateUpdateEvent] (validation/events.ts), for the four fields above:
    every field is optional; the custom check of [endTime] compares it with
    [req.body.startTime] when the request carries one. *)
Definition optionalLength (min max : Z) (value : option string) : bool :=
  match value with
  | Some v => isLength min max (Some v)
  | None => true
  end.

Definition validateUpdateEvent (body : EventUpdate) : list (string * string) :=
  (if optionalLength 3 100 (upd_title body) then []
   else [("title", "Title must be between 3 and 100 characters")]%string) ++
  (if optionalLength 10 1000 (upd_description body) then []
   else [("description", "Description must be between 10 and 1000 characters")]%string) ++
  (match upd_startTime body with
   | NotADate => [("startTime", "startTime must be a valid ISO 8601 datetime")]%string
   | _ => []
   end) ++
  (match upd_endTime body with
   | Absent => []
   | NotADate => [("endTime", "endTime must be a valid ISO 8601 datetime")]%string
   | IsoDate value =>
       match upd_startTime body with
       | IsoDate startTime =>
           if value <=? startTime
           then [("endTime", "endTime must be after startTime")]%string
           else []
       | _ => []
       end
   end).

(** *** Attendance (POST /api/events/:id/attend of routes/events.ts) *)

Definition validateJoinEvent (id userId : string) : bool :=
  validateObjectId id && validateRequiredObjectId userId.

(** [users] are the identifiers of the User collection, [now] the time of
    the request.  After the [push], [event.save()] validates the document;
    the answer counts the attendees after [populate('attendees')]. *)
Definition attendRoute (users : list ObjectId) (now : Z) (id userId : string)
    (found : option Event) : Response * option Event :=
  if negb (validateJoinEvent id userId) then (validationFailed, found) else
  match found with
  | None => (mkResponse NotFound404 "Event not found" [], found)
  | Some event =>
      if startTime event <=? now then
        (mkResponse BadRequest400 "Cannot attend event that has already started" [],
         found)
      else
        let isAlreadyAttending :=
          existsb (λ attendeeId, bool_decide (toString attendeeId = userId))
                  (attendees event) in
        if isAlreadyAttending then
          (mkResponse Conflict409 "User is already attending this event" [], found)
        else if bool_decide (toString (host event) = userId) then
          (mkResponse BadRequest400 "Event host is automatically attending" [], found)
        else
          let event' := {| title := title event; description := description event;
                           startTime := startTime event; endTime := endTime event;
                           host := host event;
                           attendees := attendees event ++ [ObjectId_new userId];
                           coordinates := coordinates event |} in
          match save now event' with
          | Stored event' =>
              (mkResponse OK200 "Successfully joined event"
                 [("attendeeCount"%string, count (populate users (attendees event')));
                  ("isAttending"%string, JBool true)],
               Some event')
          | Invalid _ =>
              (mkResponse InternalError500 "Failed to join event" [], found)
          end
  end.

(** The operation [attendEvent(event, user)] of the specification, for a
    request that carries the identifier of [user] as it prints. *)
Definition attendEvent (users : list ObjectId) (now : Z) (id : string)
    (user : ObjectId) (found : option Event) : Response * option Event :=
  attendRoute users now id (toString user) found.

(** The virtual [attendeeCount]. *)
Definition attendeeCount (event : Event) : nat := List.length (attendees event).

(** The virtual [isUpcoming]. *)
Definition isUpcoming (now : Z) (event : Event) : bool := now <? startTime event.

(** *** Leaving (DELETE /api/events/:id/attend of routes/events.ts)

    The route has no validation chain; the handler checks the two
    identifiers itself, filters the attendees and saves the event at the
    time [now] of the request. *)
Definition leaveRoute (now : Z) (id userId : string) (found : option Event)
  : Response * option Event :=
  if negb (isValid id) then
    (mkResponse BadRequest400 "Invalid event ID format" [], found) else
  if bool_decide (userId = EmptyString) || negb (isValid userId) then
    (mkResponse BadRequest400 "Valid user ID is required in request body" [], found) else
  match found with
  | None => (mkResponse NotFound404 "Event not found" [], found)
  | Some event =>
      let event' := {| title := title event; description := description event;
                       startTime := startTime event; endTime := endTime event;
                       host := host event;
                       attendees :=
                         filter (λ attendeeId, toString attendeeId ≠ userId)
                                (attendees event);
                       coordinates := coordinates event |} in
      match save now event' with
      | Stored event' =>
          (mkResponse OK200 "Successfully left event"
             [("attendeeCount"%string, count (attendees event'));
              ("isAttending"%string, JBool false)],
           Some event')
      | Invalid _ =>
          (mkResponse InternalError500 "Failed to leave event" [], found)
      end
  end.

End WithIds.
End EventModel.

(** ** Posts (models/Post.ts, api/posts.ts) *)

Module PostModel.
Section WithIds.
Context `{ObjectIdOps}.

Record Comment := mkComment {
  comment_id : ObjectId;
  comment_author : ObjectId;
  comment_content : string;
  comment_createdAt : Z
}.

Record Post := mkPost {
  content : string;
  author : ObjectId;
  imageUrl : option string;
  likes : list ObjectId;
  comments : list Comment
}.

(** The virtual [likeCount]. *)
Definition likeCount (this : Post) : nat := List.length (likes this).

(** [this.likes.some(likeId => likeId.equals(userId))] *)
Definition isLikedBy (this : Post) (userId : ObjectId) : bool :=
  existsb (λ likeId, bool_decide (likeId = userId)) (likes this).

(** [likes] declares no validator, so the [save()] that ends these methods
    stores the document: a method is the document it leaves behind. *)

Definition addLike (userId : ObjectId) (this : Post) : Post :=
  if negb (bool_decide (userId ∈ likes this)) then
    {| content := content this; author := author this; imageUrl := imageUrl this;
       likes := likes this ++ [userId]; comments := comments this |}
  else this.

Definition removeLike (userId : ObjectId) (this : Post) : Post :=
  {| content := content this; author := author this; imageUrl := imageUrl this;
     likes := filter (λ likeId, likeId ≠ userId) (likes this);
     comments := comments this |}.

Definition toggleLike (userId : ObjectId) (this : Post) : Post :=
  let hasLiked := existsb (λ likeId, bool_decide (likeId = userId)) (likes this) in
  if hasLiked then removeLike userId this else addLike userId this.

(** POST /api/posts/:id/like *)
Definition likeRoute (userId : ObjectId) (found : option Post)
  : Response * option Post :=
  match found with
  | None => (mkResponse NotFound404 "Post not found" [], found)
  | Some post =>
      let post := toggleLike userId post in
      (mkResponse OK200 (if isLikedBy post userId then "Post liked" else "Post unliked")
         [("likeCount"%string, count (likes post));
          ("isLiked"%string, JBool (isLikedBy post userId))],
       Some post)
  end.

(** The virtual [commentCount]. *)
Definition commentCount (this : Post) : nat := List.length (comments this).

(** *** Comments

    The validators of [CommentSchema] on one comment: [content] is required
    and has at most 500 characters ([author] is required too; a comment of
    this model always has one). *)
Definition comment_validators (c : Comment) : option string :=
  if bool_decide (comment_content c = EmptyString)
  then Some "Comment content is required"%string
  else if 500 <? strlen (comment_content c)
       then Some "Comment cannot exceed 500 characters"%string
       else None.

Fixpoint comments_validators (l : list Comment) : option string :=
  match l with
  | [] => None
  | c :: r => match comment_validators c with
              | Some msg => Some msg
              | None => comments_validators r
              end
  end.

(** [this.save()] after [comments] has been written: the validators of the
    comment schema run on the comments of the array. *)
Definition saveComments (this : Post) : Saved Post :=
  match comments_validators (comments this) with
  | Some msg => Invalid msg
  | None => Stored this
  end.

(** [addComment(userId, content)]: the method trims the content, and the
    setter [trim] of the schema trims what is pushed.  [newId] is the [_id]
    that Mongoose gives the new comment and [now] the clock. *)
Definition addComment (newId : ObjectId) (now : Z)
    (userId : ObjectId) (text : string) (this : Post) : Saved Post :=
  let this :=
    {| content := content this; author := author this;
       imageUrl := imageUrl this; likes := likes this;
       comments := comments this ++
                   [ {| comment_id := newId; comment_author := userId;
                        comment_content := trim (trim text);
                        comment_createdAt := now |} ] |} in
  saveComments this.

Definition removeComment (commentId : ObjectId) (this : Post) : Saved Post :=
  let this :=
    {| content := content this; author := author this;
       imageUrl := imageUrl this; likes := likes this;
       comments := filter (λ comment, comment_id comment ≠ commentId)
                          (comments this) |} in
  saveComments this.

(** POST /api/posts/:id/comments; [text] is the [content] of the body,
    [None] when the body has none. *)
Definition addCommentRoute (newId : ObjectId) (now : Z)
    (userId : ObjectId) (text : option string) (found : option Post)
  : Response * option Post :=
  match found with
  | None => (mkResponse NotFound404 "Post not found" [], found)
  | Some post =>
      match text with
      | None => (mkResponse BadRequest400 "Comment content is required" [], found)
      | Some text =>
          if bool_decide (text = EmptyString) || (strlen (trim text) =? 0) then
            (mkResponse BadRequest400 "Comment content is required" [], found)
          else
            match addComment newId now userId text post with
            | Stored post =>
                (mkResponse Created201 "Comment added successfully"
                   [("commentCount"%string, count (comments post))],
                 Some post)
            | Invalid _ =>
                (mkResponse InternalError500 "Failed to add comment" [], found)
            end
      end
  end.

(** DELETE /api/posts/:id/comments/:commentId *)
Definition removeCommentRoute (commentId : ObjectId) (found : option Post)
  : Response * option Post :=
  match found with
  | None => (mkResponse NotFound404 "Post not found" [], found)
  | Some post =>
      match removeComment commentId post with
      | Stored post =>
          (mkResponse OK200 "Comment deleted successfully"
             [("commentCount"%string, count (comments post))],
           Some post)
      | Invalid _ =>
          (mkResponse InternalError500 "Failed to delete comment" [], found)
      end
  end.

End WithIds.
End PostModel.

(** ** Marketplace listings (models/MarketplaceListing.ts,
    routes/marketplace.ts) *)

Module ListingModel.
Section WithIds.
Context `{ObjectIdOps}.

Inductive ListingCategory := BOOKS | ELECTRONICS | FURNITURE | OTHER.

(** The validator of [price] admits finite numbers only: a stored price is
    a finite double, that is a rational number. *)
Record MarketplaceListing := mkListing {
  title : string;
  description : option string;
  price : Q;
  seller : ObjectId;
  imageUrls : list string;
  category : ListingCategory;
  isAvailable : bool
}.

(** [isAvailable] declares no validator, so the [save()] that ends the two
    methods stores the document. *)

Definition markAsSold (this : MarketplaceListing) : MarketplaceListing :=
  {| title := title this; description := description this; price := price this;
     seller := seller this; imageUrls := imageUrls this; category := category this;
     isAvailable := false |}.

Definition markAsAvailable (this : MarketplaceListing) : MarketplaceListing :=
  {| title := title this; description := description this; price := price this;
     seller := seller this; imageUrls := imageUrls this; category := category this;
     isAvailable := true |}.

(** [validateMarkSold] *)
Definition validateMarkSold (id : string) : bool := validateObjectId id.

(** POST /api/listings/:id/sold *)
Definition soldRoute (id : string) (found : option MarketplaceListing)
  : Response * option MarketplaceListing :=
  if negb (validateMarkSold id) then (validationFailed, found) else
  if negb (isValid id) then
    (mkResponse BadRequest400 "Invalid listing ID format" [], found) else
  match found with
  | None => (mkResponse NotFound404 "Listing not found" [], found)
  | Some listing =>
      if negb (isAvailable listing) then
        (mkResponse Conflict409 "Listing is already marked as sold" [], found)
      else
        let listing := markAsSold listing in
        (mkResponse OK200 "Listing marked as sold"
           [("isAvailable"%string, JBool (isAvailable listing))],
         Some listing)
  end.

(** The virtual [hasImages]. *)
Definition hasImages (this : MarketplaceListing) : bool :=
  negb (bool_decide (imageUrls this = [])).

(** The validator of the elements of [imageUrls]. *)
Definition imageUrls_validators (urls : list string) : option string :=
  if forallb imageUrlPattern urls then None
  else Some "Invalid image URL format"%string.

(** The outcome of [addImage]: the stored listing, the validation error of
    [save()], or the [Error] that the method throws at the limit. *)
Inductive AddImage :=
  | ImageStored (doc : MarketplaceListing)
  | ImageInvalid (msg : string)
  | ImageLimit (msg : string).

Definition addImage (imageUrl : string) (this : MarketplaceListing) : AddImage :=
  if Z.of_nat (List.length (imageUrls this)) <? 10 then
    let this :=
      {| title := title this; description := description this;
         price := price this; seller := seller this;
         imageUrls := imageUrls this ++ [imageUrl];
         category := category this; isAvailable := isAvailable this |} in
    match imageUrls_validators (imageUrls this) with
    | Some msg => ImageInvalid msg
    | None => ImageStored this
    end
  else ImageLimit "Maximum of 10 images allowed per listing".

(** *** Routes of the router without validation (api/marketplace.ts) *)

(** POST /api/marketplace/:id/sold *)
Definition sold_api (found : option MarketplaceListing)
  : Response * option MarketplaceListing :=
  match found with
  | None => (mkResponse NotFound404 "Listing not found" [], found)
  | Some listing =>
      let listing := markAsSold listing in
      (mkResponse OK200 "Listing marked as sold"
         [("isAvailable"%string, JBool (isAvailable listing))],
       Some listing)
  end.

(** POST /api/marketplace/:id/available *)
Definition available_api (found : option MarketplaceListing)
  : Response * option MarketplaceListing :=
  match found with
  | None => (mkResponse NotFound404 "Listing not found" [], found)
  | Some listing =>
      let listing := markAsAvailable listing in
      (mkResponse OK200 "Listing marked as available"
         [("isAvailable"%string, JBool (isAvailable listing))],
       Some listing)
  end.

End WithIds.
End ListingModel.

(** ** Pagination (middleware/validation.ts and the list routes) *)

Module Pagination.

(** A parameter of the query string: missing, present but not an integer,
    or an integer. *)
Inductive QueryParam :=
  | Missing
  | NotAnInteger
  | Integer (n : Z).

(** [query(field).optional().isInt({ min, max })] *)
Definition optionalInt (min : Z) (max : option Z) (q : QueryParam) : bool :=
  match q with
  | Missing => true
  | NotAnInteger => false
  | Integer n => (min <=? n) && match max with Some m => n <=? m | None => true end
  end.

(** [validatePagination]: the chains of [page] and [limit]. *)
Definition validatePagination (page limit : QueryParam) : bool :=
  optionalInt 1 None page && optionalInt 1 (Some 100) limit.

(** [parseInt(req.query.field) || fallback]: [NaN] and [0] are falsy. *)
Definition parseIntOr (q : QueryParam) (fallback : Z) : Z :=
  match q with
  | Integer n => if n =? 0 then fallback else n
  | _ => fallback
  end.

(** [Math.ceil(total / limit)] for a positive [limit].  The counts of a
    collection are integers far below 2^53, for which the floating-point
    quotient has the ceiling of the exact one. *)
Definition ceil_div (total limit : Z) : Z := - ((- total) / limit).

Record PaginationInfo := mkPagination {
  page : Z;
  limit : Z;
  total : Z;
  totalPages : Z;
  hasNext : bool;
  hasPrev : bool
}.

(** The [pagination] object of GET /api/events, /api/listings, /api/clubs
    and /api/posts, for a collection (or filter) of [total] documents. *)
Definition pagination (qpage qlimit : QueryParam) (total : Z) : PaginationInfo :=
  let page := parseIntOr qpage 1 in
  let limit := parseIntOr qlimit 10 in
  let totalPages := ceil_div total limit in
  {| page := page; limit := limit; total := total; totalPages := totalPages;
     hasNext := page <? totalPages;
     hasPrev := 1 <? page |}.

(** [skip = (page - 1) * limit] *)
Definition skip (qpage qlimit : QueryParam) : Z :=
  (parseIntOr qpage 1 - 1) * parseIntOr qlimit 10.

(** [.skip(skip).limit(limit)] on the sorted result [docs] of the query,
    for the non-negative [skip] and the positive [limit] that validated
    parameters give. *)
Definition pageOf {A} (docs : list A) (qpage qlimit : QueryParam) : list A :=
  take (Z.to_nat (parseIntOr qlimit 10))
       (drop (Z.to_nat (skip qpage qlimit)) docs).

End Pagination.

(** ** Sample documents

    Documents over the identifiers of [HexId], on which the handlers are
    evaluated in the examples. *)

Module Examples.
Import HexId.

Definition club_id : string := "650000000000000000000001".

Definition chess_body : ClubModel.ClubBody :=
  ClubModel.mkClubBody (Some "  Chess Club "%string) None
    ["64f8a8b4c5d2e1f2a3b4c5d6"; "64f8a8b4c5d2e1f2a3b4c5d7"]%string
    ["64f8a8b4c5d2e1f2a3b4c5d6"]%string.

(** The club that [chess_body] creates: Alice and Bob are members, Alice is
    an officer. *)
Definition chess : ClubModel.Club :=
  ClubModel.mkClub "Chess Club" None [alice; bob] [alice].

(** The identifiers of Bob and of Alice as a client may also spell them,
    in upper case: [isValid] accepts them, [ObjectId_new] reads them as
    [bob] and [alice], and no identifier prints as them. *)
Definition BOB_UPPER : string := "64F8A8B4C5D2E1F2A3B4C5D7".

Definition event_id : string := "650000000000000000000002".

(** An event of Alice that starts at 1000 and ends at 2000, without
    attendees. *)

Definition seminar : EventModel.Event :=
  EventModel.mkEvent "Seminar" "A weekly seminar" 1000 2000 alice []
    [(-7362 # 100)%Q; (4071 # 100)%Q].

(** A create request whose title has 150 characters. *)
Definition lecture_body : EventModel.EventBody :=
  EventModel.mkEventBody
    (Some (repeat_char "a" 150)) (Some "A lecture on verification"%string)
    (Some "Room 101"%string) (IsoDate 1000) (IsoDate 2000)
    (Some "64f8a8b4c5d2e1f2a3b4c5d6"%string)
    [(-7362 # 100)%Q; (4071 # 100)%Q].

(** An update that brings a start time and nothing else. *)
Definition move_start (s : Z) : EventModel.EventUpdate :=
  EventModel.mkEventUpdate None None (IsoDate s) Absent.

(** A post of Alice whose array of likes holds Alice twice, as a create or
    update request can store it, and one that holds Bob once. *)
Definition doubly_liked : PostModel.Post :=
  PostModel.mkPost "Hello" alice None [alice; alice] [].

Definition liked_by_bob : PostModel.Post :=
  PostModel.mkPost "Hello" alice None [bob] [].

(** A listing that is sold. *)
Definition listing_id : string := "650000000000000000000003".

Definition sold_book : ListingModel.MarketplaceListing :=
  ListingModel.mkListing "Used Textbook" (Some "Good condition"%string)
    (2599 # 100) alice ["https://example.com/book.jpg"%string]
    ListingModel.BOOKS false.

End Examples.

(** * Properties *)

(** ** Clubs: officers are members *)

Section ClubProperties.
Context `{ObjectIdOps}.
Import ClubModel.

Lemma includes_all (ms os : list ObjectId) :
  forallb (includes ms) os = true ↔ os ⊆ ms.
Proof.
  unfold includes. rewrite forallb_forall. split.
  - intros Hall o Ho. apply list_elem_of_In, Hall in Ho.
    by apply bool_decide_eq_true in Ho.
  - intros Hsub o Ho. apply bool_decide_eq_true, Hsub. by apply list_elem_of_In.
Qed.

Lemma officers_path_valid (c : Club) :
  validatePath c officers_path = None ↔ officers c ⊆ members c.
Proof.
  simpl. rewrite <- includes_all.
  destruct (forallb (includes (members c)) (officers c)); split; congruence.
Qed.

(** A [save] that succeeds stores the document it was called on. *)
Lemma save_stored (written : list ClubPath) (c c' : Club) :
  save written c = Stored c' → c' = c.
Proof.
  unfold save. destruct (validatePaths c written); congruence.
Qed.


(** A [save] that writes [officers] succeeds only if they are members. *)
Lemma save_officers (written : list ClubPath) (c c' : Club) :
  officers_path ∈ written → save written c = Stored c' →
  officers c' ⊆ members c'.
Proof.
  intros Hin Hs. pose proof (save_stored _ _ _ Hs) as ->.
  unfold save in Hs. destruct (validatePaths c written) eqn:Hv; [done|]. clear Hs.
  induction written as [|p r IH]; [by apply elem_of_nil in Hin|].
  simpl in Hv. destruct (validatePath c p) eqn:Hp; [done|].
  apply elem_of_cons in Hin as [<-|Hin]; [by apply officers_path_valid|by apply IH].
Qed.

Lemma save_members_officers (c : Club) :
  officers c ⊆ members c → save [members_path; officers_path] c = Stored c.
Proof.
  intros Hc%officers_path_valid. unfold save, validatePaths.
  rewrite Hc. reflexivity.
Qed.

Lemma createClub_invariant (body : ClubBody) (c : Club) :
  createClub body = Stored c → officers c ⊆ members c.
Proof.
  unfold createClub.
  destruct (castIds (body_members body)) as [ms|]; [|done].
  destruct (castIds (body_officers body)) as [os|]; [|done].
  set (this := mkClub _ _ ms os).
  unfold validatePaths.
  destruct (validatePath this name_path); [done|].
  destruct (validatePath this description_path); [done|].
  destruct (validatePath this members_path); [done|].
  destruct (validatePath this officers_path) eqn:Ho; [done|].
  intros [= <-]. by apply officers_path_valid.
Qed.

(** Every mutator succeeds on a club whose officers are members, and keeps
    them so. *)
Lemma call_invariant (m : Mutator) (c : Club) :
  officers c ⊆ members c →
  ∃ c', call m c = Stored c' ∧ officers c' ⊆ members c'.
Proof.
  intros Hc. destruct m as [u|u|u|u]; simpl.
  - unfold addMember, includes. case_bool_decide; simpl.
    + eexists; split; [by apply save_members_officers|done].
    + eexists; split.
      * apply save_members_officers. simpl. by apply list_subseteq_app_l.
      * simpl. by apply list_subseteq_app_l.
  - unfold removeMember. simpl. eexists; split.
    + apply save_members_officers. simpl.
      intros o [Hou Ho]%list_elem_of_filter. apply list_elem_of_filter. auto.
    + simpl. intros o [Hou Ho]%list_elem_of_filter. apply list_elem_of_filter. auto.
  - unfold addOfficer, includes.
    destruct (bool_decide (u ∈ members c)) eqn:Hm; simpl.
    + apply bool_decide_eq_true in Hm.
      destruct (bool_decide (u ∈ officers c)) eqn:Ho; simpl.
      * eexists; split; [by apply save_members_officers|done].
      * eexists; split.
        -- apply save_members_officers. simpl.
           intros o [Ho' | ->%list_elem_of_singleton]%elem_of_app; auto.
        -- simpl. intros o [Ho' | ->%list_elem_of_singleton]%elem_of_app; auto.
    + destruct (bool_decide (u ∈ officers c)) eqn:Ho; simpl.
      * eexists; split.
        -- apply save_members_officers. simpl. by apply list_subseteq_app_l.
        -- simpl. by apply list_subseteq_app_l.
      * eexists; split.
        -- apply save_members_officers. simpl.
           intros o [Ho' | ->%list_elem_of_singleton]%elem_of_app;
             apply elem_of_app; [left; auto|right; by apply list_elem_of_singleton].
        -- simpl.
           intros o [Ho' | ->%list_elem_of_singleton]%elem_of_app;
             apply elem_of_app; [left; auto|right; by apply list_elem_of_singleton].
  - unfold removeOfficer. simpl. eexists; split.
    + apply save_members_officers. simpl.
      intros o [_ Ho]%list_elem_of_filter. auto.
    + simpl. intros o [_ Ho]%list_elem_of_filter. auto.
Qed.

Lemma reachable_invariant (c : Club) : reachable c → officers c ⊆ members c.
Proof.
  induction 1 as [body c Hc|m c c' _ IH Hcall].
  - by apply (createClub_invariant body).
  - destruct (call_invariant m c IH) as (c'' & Hc'' & Hinv).
    rewrite Hcall in Hc''. by injection Hc'' as ->.
Qed.

(** [addOfficer] leaves the user in both arrays whenever it succeeds. *)
Lemma addOfficer_both (userId : ObjectId) (c c' : Club) :
  addOfficer userId c = Stored c' → userId ∈ members c' ∧ userId ∈ officers c'.
Proof.
  intros Hs. pose proof (save_stored _ _ _ Hs) as ->. clear Hs.
  unfold includes.
  destruct (bool_decide (userId ∈ members c)) eqn:Hm; simpl.
  - apply bool_decide_eq_true in Hm.
    destruct (bool_decide (userId ∈ officers c)) eqn:Ho; simpl.
    + apply bool_decide_eq_true in Ho. done.
    + split; [done|]. apply elem_of_app. right. by apply list_elem_of_singleton.
  - destruct (bool_decide (userId ∈ officers c)) eqn:Ho; simpl.
    + apply bool_decide_eq_true in Ho. split; [|done].
      apply elem_of_app. right. by apply list_elem_of_singleton.
    + split; apply elem_of_app; right; by apply list_elem_of_singleton.
Qed.

(** C1. In a collection written by club creation and by the mutators
    [addMember], [removeMember], [addOfficer] and [removeOfficer], every club
    has its officers among its members; every mutator call on such a club
    succeeds and leaves the officers among the members; and [addOfficer] for
    a user who is not a member leaves that user both in [members] and in
    [officers]. *)
Theorem officers_subset_members (c : Club) :
  reachable c →
  officers c ⊆ members c ∧
  (∀ m : Mutator, ∃ c', call m c = Stored c' ∧ officers c' ⊆ members c') ∧
  (∀ userId : ObjectId, userId ∉ members c →
     ∃ c', addOfficer userId c = Stored c' ∧
           userId ∈ members c' ∧ userId ∈ officers c').
Proof.
  intros Hinv%reachable_invariant. split; [done|]. split.
  - intros m. by apply call_invariant.
  - intros userId _.
    destruct (call_invariant (AddOfficer userId) c Hinv) as (c' & Hc' & _).
    exists c'. split; [done|]. by apply (addOfficer_both userId c).
Qed.

End ClubProperties.

Section ClubExamples.
Import HexId Examples ClubModel.

Example chess_created : createClub chess_body = Stored chess.
Proof. reflexivity. Qed.

Lemma officers_subset_members_witness :
  reachable chess ∧
  (officers chess ⊆ members chess ∧
   (∀ m : Mutator, ∃ c', call m chess = Stored c' ∧ officers c' ⊆ members c') ∧
   (∀ userId : ObjectId, userId ∉ members chess →
      ∃ c', addOfficer userId chess = Stored c' ∧
            userId ∈ members c' ∧ userId ∈ officers c')).
Proof.
  assert (reachable chess) as Hr.
  { apply (reachable_create chess_body). reflexivity. }
  split; [exact Hr|]. exact (officers_subset_members chess Hr).
Defined.

End ClubExamples.

(** ** Clubs: the officer and leave routes *)

Section ClubRoutes.
Context `{ObjectIdOps}.
Import ClubModel.

(** [l.some(x => x.toString() === userId)], for the printed form of an
    identifier, is membership of that identifier. *)
Lemma some_toString (l : list ObjectId) (u : ObjectId) :
  existsb (λ o, bool_decide (toString o = toString u)) l = bool_decide (u ∈ l).
Proof.
  induction l as [|a l IH].
  - symmetry. apply bool_decide_eq_false_2, not_elem_of_nil.
  - simpl. rewrite IH. destruct (decide (a = u)) as [->|Hne].
    + rewrite (bool_decide_eq_true_2 (toString u = toString u)) by done. simpl.
      symmetry. apply bool_decide_eq_true. by left.
    + rewrite (bool_decide_eq_false_2 (toString a = toString u))
        by (by intros E%toString_inj).
      simpl. apply bool_decide_ext. rewrite elem_of_cons.
      split; [by right|]. intros [E|Hin]; [by subst|done].
Qed.

Lemma required_toString (u : ObjectId) :
  validateRequiredObjectId (toString u) = true.
Proof.
  unfold validateRequiredObjectId.
  rewrite (bool_decide_eq_false_2 _ (toString_nonempty u)).
  simpl. apply isValid_toString.
Qed.




(** DELETE /api/clubs/:id/leave of the router with validation, for a
    request that carries the identifier of the user as it prints: a member
    is removed from [members] and from [officers], everybody else stays; for
    a user who is not a member the answer is 404 and the club is untouched. *)
Lemma leaveClub_validated (id : string) (userId : ObjectId) (c : Club) :
  isValid id = true →
  (userId ∈ members c → officers c ⊆ members c →
     ∃ c', leaveClub id (toString userId) (Some c) =
             (mkResponse OK200 "Successfully left club"
                [("memberCount"%string, count (members c'));
                 ("isMember"%string, JBool false)], Some c') ∧
           members c' = (filter (λ m, m ≠ userId) (members c)) ∧
           officers c' = (filter (λ o, o ≠ userId) (officers c)) ∧
           (userId ∉ members c') ∧ (userId ∉ officers c')) ∧
  (userId ∉ members c →
     leaveClub id (toString userId) (Some c) =
       (mkResponse NotFound404 "User is not a member of this club" [], Some c)).
Proof.
  intros Hid.
  assert (leaveClub id (toString userId) (Some c) =
            if negb (bool_decide (userId ∈ members c))
            then (mkResponse NotFound404 "User is not a member of this club" [], Some c)
            else match removeMember (ObjectId_new (toString userId)) c with
                 | Stored club =>
                     (mkResponse OK200 "Successfully left club"
                        [("memberCount"%string, count (members club));
                         ("isMember"%string, JBool false)], Some club)
                 | Invalid _ =>
                     (mkResponse InternalError500 "Failed to leave club" [], Some c)
                 end) as Hroute.
  { unfold leaveClub, validateLeaveClub, validateObjectId.
    rewrite Hid, required_toString. simpl.
    rewrite (bool_decide_eq_false_2 _ (toString_nonempty userId)).
    rewrite isValid_toString. simpl. by rewrite some_toString. }
  split.
  - intros Hm Hinv. rewrite Hroute, (bool_decide_eq_true_2 _ Hm). simpl.
    rewrite ObjectId_new_toString.
    destruct (call_invariant (RemoveMember userId) c Hinv) as (c' & Hc' & _).
    simpl in Hc'. exists c'. rewrite Hc'. split; [done|].
    apply save_stored in Hc'. subst c'. simpl.
    repeat split; try done; intros [Hne _]%list_elem_of_filter; done.
  - intros Hm. by rewrite Hroute, (bool_decide_eq_false_2 _ Hm).
Qed.

End ClubRoutes.

Section ClubRouteExamples.
Import HexId Examples ClubModel.



(** C5 on the router without validation: Carol is not a member of the club,
    and her request to leave is answered with success, not with 404. *)
Lemma leaveClub_api_nonmember :
  (carol ∉ members chess) ∧
  leaveClub_api carol (Some chess) =
    (mkResponse OK200 "Successfully left club"
       [("memberCount"%string, JNumber 2)], Some chess).
Proof.
  split.
  - intros [E|[E|E%elem_of_nil]%elem_of_cons]%elem_of_cons; [|  |done].
    + by apply alice_carol.
    + by apply bob_carol.
  - reflexivity.
Qed.

End ClubRouteExamples.

(** ** Events: attendance *)

Section EventAttendance.
Context `{ObjectIdOps}.
Import EventModel.

(** An attendee that prints as the request's [userId] is the identifier
    that the request denotes. *)
Lemma prints_as_member (request : string) (l : list ObjectId) :
  existsb (λ o, bool_decide (toString o = request)) l = true →
  ObjectId_new request ∈ l.
Proof.
  intros (o & Ho & Hp)%existsb_exists. apply bool_decide_eq_true in Hp.
  subst request. rewrite ObjectId_new_toString. by apply list_elem_of_In.
Qed.

Lemma prints_as_none (request : string) (l : list ObjectId) :
  existsb (λ o, bool_decide (toString o = request)) l = false ↔
  ∀ o, o ∈ l → toString o ≠ request.
Proof.
  induction l as [|a l IH]; simpl.
  - split; [|done]. intros _ o Ho. by apply elem_of_nil in Ho.
  - rewrite orb_false_iff, IH. split.
    + intros [Ha Hl] o [->|Ho]%elem_of_cons; [|by apply Hl].
      by apply bool_decide_eq_false in Ha.
    + intros Hall. split.
      * apply bool_decide_eq_false. apply Hall. by left.
      * intros o Ho. apply Hall. by right.
Qed.

Lemma validateJoinEvent_valid (id request : string) :
  isValid id = true → isValid request = true → request ≠ EmptyString →
  validateJoinEvent id request = true.
Proof.
  intros Hid Hr Hne. unfold validateJoinEvent, validateObjectId,
    validateRequiredObjectId.
  by rewrite Hid, Hr, (bool_decide_eq_false_2 _ Hne).
Qed.

Lemma validateJoinEvent_toString (id : string) (user : ObjectId) :
  isValid id = true → validateJoinEvent id (toString user) = true.
Proof.
  intros Hid. apply validateJoinEvent_valid; [done| |].
  - apply isValid_toString.
  - apply toString_nonempty.
Qed.

(** A started event does not pass the validators. *)
Lemma validateEvent_started (now : Z) (event : Event) :
  startTime event ≤ now → validateEvent now event ≠ None.
Proof.
  intros Hs. unfold validateEvent. simpl.
  unfold startTime_validators, startTime_validator.
  rewrite (proj2 (Z.ltb_ge now (startTime event)) Hs).
  repeat case_match; done.
Qed.

Lemma validateEvent_upcoming (now : Z) (event : Event) :
  validateEvent now event = None → now < startTime event.
Proof.
  intros Hv. destruct (decide (now < startTime event)) as [|Hn]; [done|].
  exfalso. apply (validateEvent_started now event); [lia|done].
Qed.

(** The answer of the route to a request with well-formed identifiers, by
    cases. *)
Lemma attendRoute_cases
    (users : list ObjectId) (now : Z) (id request : string) (event : Event) :
  isValid id = true → isValid request = true → request ≠ EmptyString →
  attendRoute users now id request (Some event) =
    if startTime event <=? now then
      (mkResponse BadRequest400 "Cannot attend event that has already started" [],
       Some event)
    else if existsb (λ a, bool_decide (toString a = request)) (attendees event) then
      (mkResponse Conflict409 "User is already attending this event" [], Some event)
    else if bool_decide (toString (host event) = request) then
      (mkResponse BadRequest400 "Event host is automatically attending" [],
       Some event)
    else
      match validateEvent now event with
      | None =>
          (mkResponse OK200 "Successfully joined event"
             [("attendeeCount"%string,
               count (populate users (attendees event ++ [ObjectId_new request])));
              ("isAttending"%string, JBool true)],
           Some (mkEvent (title event) (description event) (startTime event)
                   (endTime event) (host event)
                   (attendees event ++ [ObjectId_new request]) (coordinates event)))
      | Some _ =>
          (mkResponse InternalError500 "Failed to join event" [], Some event)
      end.
Proof.
  intros Hid Hr Hne. unfold attendRoute.
  rewrite (validateJoinEvent_valid id request Hid Hr Hne). simpl.
  destruct (startTime event <=? now); [done|].
  destruct (existsb _ (attendees event)); [done|].
  destruct (bool_decide (toString (host event) = request)); [done|].
  unfold save.
  change (validateEvent now (mkEvent (title event) (description event)
            (startTime event) (endTime event) (host event)
            (attendees event ++ [ObjectId_new request]) (coordinates event)))
    with (validateEvent now event).
  by destruct (validateEvent now event).
Qed.

(** For a request that carries the identifier of the user as it prints, and
    an event that satisfies its schema and has no attendee, the first
    request of a user who is not the host is answered with 200 and, if the
    user has a User document, the count 1; a second request is answered
    with Conflict and leaves the attendees as they are. *)
Lemma attendEvent_twice
    (users : list ObjectId) (now1 now2 : Z) (id : string)
    (userA : ObjectId) (event : Event) :
  isValid id = true →
  validateEvent now1 event = None → now2 < startTime event →
  userA ∈ users → userA ≠ host event →
  attendees event = [] →
  ∃ event',
    attendEvent users now1 id userA (Some event) =
      (mkResponse OK200 "Successfully joined event"
         [("attendeeCount"%string, JNumber 1); ("isAttending"%string, JBool true)],
       Some event') ∧
    attendeeCount event' = 1%nat ∧
    attendEvent users now2 id userA (Some event') =
      (mkResponse Conflict409 "User is already attending this event" [],
       Some event').
Proof.
  intros Hid Hv Hnow2 Huser Hhost Hempty.
  pose proof (validateEvent_upcoming now1 event Hv) as Hnow1.
  exists (mkEvent (title event) (description event) (startTime event)
            (endTime event) (host event) [userA] (coordinates event)).
  unfold attendEvent.
  rewrite !attendRoute_cases;
    try done; try apply isValid_toString; try apply toString_nonempty.
  simpl. rewrite Hempty. simpl.
  rewrite (proj2 (Z.leb_gt _ _) Hnow1), (proj2 (Z.leb_gt _ _) Hnow2).
  rewrite (bool_decide_eq_false_2 (toString (host event) = toString userA))
    by (intros E%toString_inj; by apply Hhost).
  rewrite Hv, ObjectId_new_toString.
  rewrite (bool_decide_eq_true_2 (toString userA = toString userA)) by done.
  simpl. unfold populate. rewrite filter_cons_True by done. done.
Qed.

End EventAttendance.

Section EventAttendanceExamples.
Import HexId Examples EventModel.

(** C3 fails on the route: [isValid] accepts Bob's identifier in upper case
    and the handler compares the printed, lower-case form of each attendee
    with the request as it came.  For the seminar, without attendees and
    still to start, the first request with that spelling is answered 200
    with attendee count 1; the second, with the same user and spelling, is
    answered 200 again, not Conflict, and the attendees are then Bob twice,
    with count 2. *)
Lemma attend_twice_upper_case :
  isValid BOB_UPPER = true ∧ ObjectId_new BOB_UPPER = bob ∧
  attendRoute [alice; bob] 10 event_id BOB_UPPER (Some seminar) =
    (mkResponse OK200 "Successfully joined event"
       [("attendeeCount"%string, JNumber 1); ("isAttending"%string, JBool true)],
     Some (mkEvent "Seminar" "A weekly seminar" 1000 2000 alice [bob]
             (coordinates seminar))) ∧
  attendRoute [alice; bob] 20 event_id BOB_UPPER
    (Some (mkEvent "Seminar" "A weekly seminar" 1000 2000 alice [bob]
             (coordinates seminar))) =
    (mkResponse OK200 "Successfully joined event"
       [("attendeeCount"%string, JNumber 2); ("isAttending"%string, JBool true)],
     Some (mkEvent "Seminar" "A weekly seminar" 1000 2000 alice [bob; bob]
             (coordinates seminar))).
Proof.
  split; [reflexivity|]. split; [reflexivity|]. split; reflexivity.
Qed.

(** With the identifier as it prints, the second request is a Conflict. *)
Example attendEvent_twice_seminar :
  ∃ event',
    attendEvent [alice; bob] 10 event_id bob (Some seminar) =
      (mkResponse OK200 "Successfully joined event"
         [("attendeeCount"%string, JNumber 1); ("isAttending"%string, JBool true)],
       Some event') ∧
    attendeeCount event' = 1%nat ∧
    attendEvent [alice; bob] 20 event_id bob (Some event') =
      (mkResponse Conflict409 "User is already attending this event" [],
       Some event').
Proof.
  apply (attendEvent_twice (H:=ops) [alice; bob] 10 20 event_id bob seminar).
  - reflexivity.
  - reflexivity.
  - reflexivity.
  - apply elem_of_cons. right. by apply list_elem_of_singleton.
  - intros E. by apply alice_bob.
  - reflexivity.
Qed.

End EventAttendanceExamples.

(** ** Events: the order of start and end, and the start in the future *)

Section EventTimes.
Context `{ObjectIdOps}.
Import EventModel.

Lemma firstError_None (l : list (option string)) :
  firstError l = None ↔ Forall (λ o, o = None) l.
Proof.
  induction l as [|[msg|] l IH]; simpl.
  - split; [constructor|done].
  - split; [done|]. intros Hf. by inversion Hf.
  - rewrite IH. split; [by constructor|]. intros Hf. by inversion Hf.
Qed.

(** What an event that passes the validators satisfies. *)
Lemma validateEvent_None (now : Z) (event : Event) :
  validateEvent now event = None ↔
  title_validators (title event) = None ∧
  description_validators (description event) = None ∧
  now < startTime event ∧
  startTime event < endTime event ∧
  coordinates_validator (coordinates event) = true.
Proof.
  unfold validateEvent. simpl.
  unfold startTime_validators, startTime_validator,
    endTime_validators, endTime_validator, coordinates_validators.
  destruct (title_validators (title event)); [by split; [|intros [? _]]|].
  destruct (description_validators (description event));
    [by split; [|intros (_ & ? & _)]|].
  destruct (now <? startTime event) eqn:Hs.
  2: { apply Z.ltb_ge in Hs. split; [done|]. intros (_ & _ & ? & _). lia. }
  apply Z.ltb_lt in Hs.
  destruct (startTime event <? endTime event) eqn:He.
  2: { apply Z.ltb_ge in He. split; [done|]. intros (_ & _ & _ & ? & _). lia. }
  apply Z.ltb_lt in He.
  destruct (coordinates_validator (coordinates event)); [done|].
  split; [done|]. by intros (_ & _ & _ & _ & ?).
Qed.

Lemma save_Stored (now : Z) (this event : Event) :
  save now this = Stored event ↔ event = this ∧ validateEvent now this = None.
Proof.
  unfold save. destruct (validateEvent now this); split.
  - done.
  - by intros [_ ?].
  - by intros [= <-].
  - by intros [-> _].
Qed.

(** The document that [createEvent] hands to [save]. *)
Lemma createEvent_saves (now : Z) (body : EventBody) (event : Event) :
  createEvent now body = Stored event →
  ∃ t d s e h,
    body_title body = Some t ∧ body_description body = Some d ∧
    body_startTime body = IsoDate s ∧ body_endTime body = IsoDate e ∧
    body_host body = Some h ∧
    event = mkEvent (trim t) d s e (ObjectId_new h) [] (body_coordinates body) ∧
    validateEvent now event = None.
Proof.
  unfold createEvent.
  destruct (body_title body) as [t|]; [|done].
  destruct (body_description body) as [d|];
    [|by destruct (body_startTime body), (body_endTime body), (body_host body)].
  destruct (body_startTime body) as [| |s];
    [by destruct (body_endTime body), (body_host body)
    |by destruct (body_endTime body), (body_host body)|].
  destruct (body_endTime body) as [| |e];
    [by destruct (body_host body)|by destruct (body_host body)|].
  destruct (body_host body) as [h|]; [|done].
  destruct (isValid h); simpl; [|done].
  intros [-> Hv]%save_Stored. by exists t, d, s, e, h.
Qed.

(** What a stored new event satisfies: every validator of the schema. *)
Lemma createEvent_valid (now : Z) (body : EventBody) (event : Event) :
  createEvent now body = Stored event →
  title_validators (title event) = None ∧
  description_validators (description event) = None ∧
  now < startTime event ∧
  startTime event < endTime event ∧
  attendees event = [].
Proof.
  intros (t & d & s & e & h & _ & _ & _ & _ & _ & -> & Hv)%createEvent_saves.
  apply validateEvent_None in Hv as (Ht & Hd & Hs & He & _). done.
Qed.

Lemma createEvent_api_stored (now : Z) (body : EventBody) (event : Event) :
  snd (createEvent_api now body) = Some event → createEvent now body = Stored event.
Proof.
  unfold createEvent_api. destruct (createEvent now body); simpl; congruence.
Qed.

Lemma createEventRoute_stored (now : Z) (body : EventBody) (event : Event) :
  snd (createEventRoute now body) = Some event →
  createEvent now (sanitizeCreateEvent body) = Stored event.
Proof.
  unfold createEventRoute. destruct (validateCreateEvent body); [|done].
  destruct (match body_startTime (sanitizeCreateEvent body) with
            | IsoDate s => s <=? now | _ => false end); [done|].
  destruct (createEvent now (sanitizeCreateEvent body)); simpl; congruence.
Qed.

(** A rejected creation stores nothing and is a validation error. *)
Lemma createEvent_api_rejected (now : Z) (body : EventBody) :
  snd (createEvent_api now body) = None →
  errorKind (status (fst (createEvent_api now body))) = Some ValidationError.
Proof.
  unfold createEvent_api. by destruct (createEvent now body).
Qed.

Lemma createEventRoute_rejected (now : Z) (body : EventBody) :
  snd (createEventRoute now body) = None →
  errorKind (status (fst (createEventRoute now body))) = Some ValidationError.
Proof.
  unfold createEventRoute. destruct (validateCreateEvent body); [|done].
  destruct (match body_startTime (sanitizeCreateEvent body) with
            | IsoDate s => s <=? now | _ => false end); [done|].
  by destruct (createEvent now (sanitizeCreateEvent body)).
Qed.

(** The outcome of the update, by cases. *)
Lemma updateEvent_cases (now : Z) (body : EventUpdate) (event : Event) :
  (success (fst (updateEvent now body (Some event))) = false ∧
   snd (updateEvent now body (Some event)) = Some event) ∨
  (castFails body = false ∧ updateValidators now body = None ∧
   updateEvent now body (Some event) =
     (mkResponse OK200 "Event updated successfully" [],
      Some (applyUpdate body event))).
Proof.
  unfold updateEvent. destruct (castFails body); [by left|].
  destruct (updateValidators now body); [by left|by right].
Qed.

(** Under update validators the validator of [endTime] always fails. *)
Lemma updateValidators_endTime (now : Z) (body : EventUpdate) :
  updateValidators now body = None → castFails body = false →
  upd_endTime body = Absent.
Proof.
  unfold updateValidators, castFails. simpl. intros Hv Hc.
  destruct (upd_endTime body) as [| |e]; [done| |].
  - by destruct (upd_startTime body).
  - unfold endTime_validators, endTime_validator in Hv.
    repeat case_match; done.
Qed.

Lemma updateValidators_startTime (now : Z) (body : EventUpdate) (s : Z) :
  updateValidators now body = None → upd_startTime body = IsoDate s → now < s.
Proof.
  unfold updateValidators. simpl. intros Hv Hs. rewrite Hs in Hv.
  unfold startTime_validators, startTime_validator in Hv.
  destruct (now <? s) eqn:E; [by apply Z.ltb_lt|].
  repeat case_match; done.
Qed.

End EventTimes.

Section EventOrder.
Context `{ObjectIdOps}.
Import EventModel.

Lemma createEvent_dates (now : Z) (body : EventBody) (event : Event) :
  createEvent now body = Stored event →
  body_startTime body = IsoDate (startTime event) ∧
  body_endTime body = IsoDate (endTime event).
Proof.
  by intros (t & d & s & e & h & _ & _ & -> & -> & _ & -> & _)%createEvent_saves.
Qed.

Lemma createEvent_api_answer (now : Z) (body : EventBody) :
  (∃ event, createEvent now body = Stored event ∧
            createEvent_api now body =
              (mkResponse Created201 "Event created successfully" [], Some event)) ∨
  (createEvent_api now body = (mkResponse BadRequest400 "Validation error" [], None)).
Proof.
  unfold createEvent_api. destruct (createEvent now body) as [event|msg]; eauto.
Qed.

Lemma validateUpdateEvent_endTime (body : EventUpdate) :
  fieldFails "endTime" (validateUpdateEvent body) = true ↔
  upd_endTime body = NotADate ∨
  ∃ e s, upd_endTime body = IsoDate e ∧ upd_startTime body = IsoDate s ∧ e ≤ s.
Proof.
  unfold validateUpdateEvent, fieldFails.
  destruct (optionalLength 3 100 (upd_title body));
    destruct (optionalLength 10 1000 (upd_description body));
    destruct (upd_startTime body) as [| |s];
    destruct (upd_endTime body) as [| |e]; simpl;
    try destruct (e <=? s) eqn:Hes; simpl;
    try apply Z.leb_le in Hes; try apply Z.leb_gt in Hes;
    (split;
     [ try done; intros _; try (by left); right; by exists e, s
     | try done;
       intros [E|(e' & s' & Ee & Es & Hle)]; try done;
       injection Ee as <-; injection Es as <-; lia ]).
Qed.

(** The order of the two dates, as the code enforces it.  It holds after
    every successful creation, on either router, and a creation that is
    refused is a validation error that stores nothing.  An update is
    checked path by path: one that is refused leaves the stored event as it
    is (as a
    validation error, unless a date could not be cast); one that succeeds
    without a new [startTime] keeps the order; one that brings a [startTime]
    is compared with the clock only, and the stored [endTime] stays.  The
    chain [validateUpdateEvent] reports [endTime] only when it is not a date
    or when the request also brings a [startTime] that is not before it. *)
Theorem event_time_order (now : Z) :
  (∀ body event, snd (createEvent_api now body) = Some event →
     startTime event < endTime event) ∧
  (∀ body event, snd (createEventRoute now body) = Some event →
     startTime event < endTime event) ∧
  (∀ body, snd (createEvent_api now body) = None →
     errorKind (status (fst (createEvent_api now body))) = Some ValidationError) ∧
  (∀ body, snd (createEventRoute now body) = None →
     errorKind (status (fst (createEventRoute now body))) = Some ValidationError) ∧
  (∀ body event, success (fst (updateEvent now body (Some event))) = false →
     snd (updateEvent now body (Some event)) = Some event ∧
     (castFails body = false →
      errorKind (status (fst (updateEvent now body (Some event)))) =
        Some ValidationError)) ∧
  (∀ body event, success (fst (updateEvent now body (Some event))) = true →
     upd_startTime body = Absent → startTime event < endTime event →
     ∃ event', snd (updateEvent now body (Some event)) = Some event' ∧
               startTime event' < endTime event') ∧
  (∀ body event s, success (fst (updateEvent now body (Some event))) = true →
     upd_startTime body = IsoDate s →
     now < s ∧
     ∃ event', snd (updateEvent now body (Some event)) = Some event' ∧
               startTime event' = s ∧ endTime event' = endTime event) ∧
  (∀ body, fieldFails "endTime" (validateUpdateEvent body) = true ↔
     upd_endTime body = NotADate ∨
     ∃ e s, upd_endTime body = IsoDate e ∧ upd_startTime body = IsoDate s ∧ e ≤ s).
Proof.
  split_and!.
  - intros body event Hs%createEvent_api_stored.
    by destruct (createEvent_valid now body event Hs) as (_ & _ & _ & Ho & _).
  - intros body event Hs%createEventRoute_stored.
    by destruct (createEvent_valid now _ event Hs) as (_ & _ & _ & Ho & _).
  - apply createEvent_api_rejected.
  - apply createEventRoute_rejected.
  - intros body event Hfail. split.
    + destruct (updateEvent_cases now body event) as [[_ Hu]|(_ & _ & Hu)]; [done|].
      rewrite Hu in Hfail. done.
    + intros Hc. unfold updateEvent in *. rewrite Hc in *.
      by destruct (updateValidators now body).
  - intros body event Hok Hst Hord.
    destruct (updateEvent_cases now body event) as [[Hf _]|(Hc & Hv & Hu)];
      [congruence|].
    rewrite Hu. simpl. eexists; split; [reflexivity|]. simpl.
    rewrite Hst, (updateValidators_endTime now body Hv Hc). done.
  - intros body event s Hok Hst.
    destruct (updateEvent_cases now body event) as [[Hf _]|(Hc & Hv & Hu)];
      [congruence|].
    split; [by apply (updateValidators_startTime now body s)|].
    rewrite Hu. simpl. eexists; split; [reflexivity|]. simpl.
    rewrite Hst, (updateValidators_endTime now body Hv Hc). done.
  - intros body. apply validateUpdateEvent_endTime.
Qed.

End EventOrder.

Section EventStart.
Context `{ObjectIdOps}.
Import EventModel.

Lemma updateValidators_clock (now now' : Z) (body : EventUpdate) :
  upd_startTime body = Absent →
  updateValidators now body = updateValidators now' body.
Proof.
  unfold updateValidators. by intros ->.
Qed.

Lemma updateValidators_past (now : Z) (body : EventUpdate) (s : Z) :
  upd_startTime body = IsoDate s → s ≤ now →
  ∃ msg, updateValidators now body = Some msg.
Proof.
  intros Hs Hle. unfold updateValidators. rewrite Hs. simpl.
  unfold startTime_validators, startTime_validator.
  rewrite (proj2 (Z.ltb_ge now s)) by done.
  repeat case_match; eauto.
Qed.

(** C9, as the code has it.  A start time that is not in the future is
    refused at creation, on either router, and also by an update that brings
    it, because the update validators run the validator of [startTime] on
    the new value.  An update that brings no [startTime] is answered without
    regard to the clock and to the stored event, and leaves the stored start
    time as it is. *)
Theorem startTime_future_enforcement (now : Z) :
  (∀ body s, body_startTime body = IsoDate s → s ≤ now →
     createEvent_api now body =
       (mkResponse BadRequest400 "Validation error" [], None) ∧
     snd (createEventRoute now body) = None ∧
     status (fst (createEventRoute now body)) = BadRequest400) ∧
  (∀ body found s, upd_startTime body = IsoDate s → s ≤ now →
     upd_endTime body ≠ NotADate →
     updateEvent now body found =
       (mkResponse BadRequest400 "Validation error" [], found)) ∧
  (∀ body now' event event', upd_startTime body = Absent →
     fst (updateEvent now body (Some event)) =
       fst (updateEvent now' body (Some event')) ∧
     ∀ stored, snd (updateEvent now body (Some event)) = Some stored →
               startTime stored = startTime event).
Proof.
  split_and!.
  - intros body s Hs Hle. split_and!.
    + destruct (createEvent_api_answer now body) as [(event & Hc & _)|Hr]; [|done].
      destruct (createEvent_valid now body event Hc) as (_ & _ & Hfut & _).
      destruct (createEvent_dates now body event Hc) as [Hd _].
      rewrite Hs in Hd. injection Hd as ->. lia.
    + unfold createEventRoute. destruct (validateCreateEvent body); [|done].
      simpl. rewrite Hs. by rewrite (proj2 (Z.leb_le s now)).
    + unfold createEventRoute. destruct (validateCreateEvent body); [|done].
      simpl. rewrite Hs. by rewrite (proj2 (Z.leb_le s now)).
  - intros body found s Hs Hle Hend. unfold updateEvent.
    assert (castFails body = false) as ->.
    { unfold castFails. rewrite Hs. by destruct (upd_endTime body). }
    by destruct (updateValidators_past now body s Hs Hle) as [msg ->].
  - intros body now' event event' Hs. split.
    + unfold updateEvent. rewrite (updateValidators_clock now now' body Hs).
      destruct (castFails body); [done|].
      by destruct (updateValidators now' body).
    + intros stored. unfold updateEvent.
      destruct (castFails body); simpl; [by intros [= <-]|].
      destruct (updateValidators now body); simpl; [by intros [= <-]|].
      intros [= <-]. simpl. by rewrite Hs.
Qed.

(** The bounds of the two text fields of a create request. *)
Lemma fieldFails_title (body : EventBody) :
  fieldFails "title" (validateCreateEvent body) =
    negb (isLength 3 100 (body_title body)).
Proof.
  unfold validateCreateEvent, fieldFails.
  destruct (isLength 3 100 (body_title body)); simpl; [|done].
  repeat case_match; done.
Qed.

Lemma fieldFails_description (body : EventBody) :
  fieldFails "description" (validateCreateEvent body) =
    negb (isLength 10 1000 (body_description body)).
Proof.
  unfold validateCreateEvent, fieldFails.
  destruct (isLength 3 100 (body_title body));
    (destruct (isLength 10 1000 (body_description body)); simpl; [|done]);
    repeat case_match; done.
Qed.

Lemma isLength_spec (min max : Z) (value : option string) :
  isLength min max value = true ↔
  min ≤ strlen (trim (default EmptyString value)) ≤ max.
Proof.
  unfold isLength. rewrite andb_true_iff, !Z.leb_le. done.
Qed.

Lemma strlen_nonneg (s : string) : 0 ≤ strlen s.
Proof. unfold strlen. lia. Qed.

Lemma strlen_zero (s : string) : strlen s = 0 ↔ s = EmptyString.
Proof.
  unfold strlen. destruct s; simpl; split; try done; lia.
Qed.

Lemma title_validators_spec (t : string) :
  title_validators t = None ↔ 1 ≤ strlen t ≤ 200.
Proof.
  unfold title_validators. pose proof (strlen_nonneg t) as Hn.
  pose proof (strlen_zero t) as Hz.
  case_bool_decide as Ht.
  - apply Hz in Ht. split; [done|lia].
  - assert (strlen t ≠ 0) by (by intros ?%Hz).
    destruct (200 <? strlen t) eqn:E.
    + apply Z.ltb_lt in E. split; [done|lia].
    + apply Z.ltb_ge in E. split; [lia|done].
Qed.

Lemma description_validators_spec (d : string) :
  description_validators d = None ↔ 1 ≤ strlen d ≤ 2000.
Proof.
  unfold description_validators. pose proof (strlen_nonneg d) as Hn.
  pose proof (strlen_zero d) as Hz.
  case_bool_decide as Hd.
  - apply Hz in Hd. split; [done|lia].
  - assert (strlen d ≠ 0) by (by intros ?%Hz).
    destruct (2000 <? strlen d) eqn:E.
    + apply Z.ltb_lt in E. split; [done|lia].
    + apply Z.ltb_ge in E. split; [lia|done].
Qed.

(** C8, as the code has it.  On the route with validation the chain of a
    create request accepts a title exactly when its trimmed length is from 3
    to 100 characters, and a description exactly when its trimmed length is
    from 10 to 1000 characters; such a title and description also pass the
    validators of the schema.  The schema by itself, which is all that the
    route without validation applies, accepts a trimmed title of 1 to 200
    characters and a description of 1 to 2000 characters. *)
Theorem create_event_text_bounds :
  (∀ body, fieldFails "title" (validateCreateEvent body) = false ↔
     3 ≤ strlen (trim (default EmptyString (body_title body))) ≤ 100) ∧
  (∀ body, fieldFails "description" (validateCreateEvent body) = false ↔
     10 ≤ strlen (trim (default EmptyString (body_description body))) ≤ 1000) ∧
  (∀ body, fieldFails "title" (validateCreateEvent body) = false →
     title_validators (trim (default EmptyString (body_title body))) = None) ∧
  (∀ body, fieldFails "description" (validateCreateEvent body) = false →
     description_validators
       (trim (default EmptyString (body_description body))) = None) ∧
  (∀ t, title_validators (trim t) = None ↔ 1 ≤ strlen (trim t) ≤ 200) ∧
  (∀ d, description_validators d = None ↔ 1 ≤ strlen d ≤ 2000).
Proof.
  split_and!.
  - intros body. rewrite fieldFails_title, negb_false_iff. apply isLength_spec.
  - intros body. rewrite fieldFails_description, negb_false_iff.
    apply isLength_spec.
  - intros body. rewrite fieldFails_title, negb_false_iff.
    intros Hl%isLength_spec. apply title_validators_spec. lia.
  - intros body. rewrite fieldFails_description, negb_false_iff.
    intros Hl%isLength_spec. apply description_validators_spec. lia.
  - intros t. apply title_validators_spec.
  - intros d. apply description_validators_spec.
Qed.

End EventStart.

Section EventExamples.
Import HexId Examples EventModel.

(** C2 fails in the code.  At time 500 the seminar (from 1000 to 2000) is
    moved to start at 3000: PUT /api/events/:id accepts the update and the
    stored event then ends before it starts, although the validator that
    the schema declares on [endTime] refuses that event and a creation with
    the same two dates is refused. *)
Lemma update_startTime_after_endTime :
  ∃ event',
    updateEvent 500 (move_start 3000) (Some seminar) =
      (mkResponse OK200 "Event updated successfully" [], Some event') ∧
    success (fst (updateEvent 500 (move_start 3000) (Some seminar))) = true ∧
    ¬ (startTime event' < endTime event') ∧
    endTime_validators (Some (startTime event')) (endTime event') =
      Some "End time must be after start time"%string ∧
    createEvent 500
      (mkEventBody (Some (title event')) (Some (description event')) None
         (IsoDate (startTime event')) (IsoDate (endTime event'))
         (Some (toString (host event'))) (coordinates event')) =
      Invalid "End time must be after start time".
Proof.
  eexists. split; [reflexivity|]. split; [reflexivity|].
  split; [simpl; lia|]. split; reflexivity.
Qed.

(** C9, as stated, fails: at time 5000 the seminar is in the past; an update
    that brings the start time 1500 is refused, with the message of the
    validator of [startTime], and the same update is accepted at time 1200,
    when 1500 is still to come. *)
Lemma update_past_startTime_rejected :
  startTime seminar < 5000 ∧
  updateEvent 5000 (move_start 1500) (Some seminar) =
    (mkResponse BadRequest400 "Validation error" [], Some seminar) ∧
  updateValidators 5000 (move_start 1500) = Some "Start time must be in the future"%string ∧
  success (fst (updateEvent 1200 (move_start 1500) (Some seminar))) = true.
Proof.
  split; [reflexivity|]. split; [reflexivity|]. split; reflexivity.
Qed.

(** C8, as stated, fails: a title of 150 characters, within 3 to 200, with
    a description of 25 characters, is refused by the chain of the create
    route, which answers 400; the schema alone stores the event. *)
Lemma create_event_title_150_rejected :
  body_title lecture_body = Some (repeat_char "a" 150) ∧
  strlen (repeat_char "a" 150) = 150 ∧
  fieldFails "title" (validateCreateEvent lecture_body) = true ∧
  createEventRoute 10 lecture_body = (validationFailed, None) ∧
  success (fst (createEvent_api 10 lecture_body)) = true.
Proof.
  split; [reflexivity|]. split; [reflexivity|]. split; [reflexivity|].
  split; reflexivity.
Qed.

End EventExamples.

(** ** Posts: likes *)

Section PostLikes.
Context `{ObjectIdOps}.
Import PostModel.

Lemma isLikedBy_elem (post : Post) (userId : ObjectId) :
  isLikedBy post userId = bool_decide (userId ∈ likes post).
Proof.
  unfold isLikedBy. induction (likes post) as [|a l IH].
  - symmetry. apply bool_decide_eq_false_2, not_elem_of_nil.
  - simpl. rewrite IH. destruct (decide (a = userId)) as [->|Hne].
    + rewrite (bool_decide_eq_true_2 (userId = userId)) by done. simpl.
      symmetry. apply bool_decide_eq_true_2. by left.
    + rewrite (bool_decide_eq_false_2 (a = userId)) by done. simpl.
      apply bool_decide_ext. rewrite elem_of_cons.
      split; [by right|]. intros [E|Hin]; [by subst|done].
Qed.

Lemma filter_others_id (userId : ObjectId) (l : list ObjectId) :
  userId ∉ l → filter (λ likeId, likeId ≠ userId) l = l.
Proof.
  induction l as [|a l IH]; [done|].
  intros [Hne Hl]%not_elem_of_cons.
  rewrite filter_cons_True by done. by rewrite IH.
Qed.

Lemma filter_others_absent (userId : ObjectId) (l : list ObjectId) :
  userId ∉ filter (λ likeId, likeId ≠ userId) l.
Proof. by intros [Hne _]%list_elem_of_filter. Qed.

Lemma length_filter_split (userId : ObjectId) (l : list ObjectId) :
  (List.length (filter (λ likeId, likeId ≠ userId) l) +
   List.length (filter (λ likeId, likeId = userId) l) = List.length l)%nat.
Proof.
  induction l as [|a l IH]; [done|].
  destruct (decide (a = userId)) as [E|E].
  - rewrite (filter_cons_False (λ likeId, likeId ≠ userId)) by (by intros ?).
    rewrite (filter_cons_True (λ likeId, likeId = userId)) by done.
    simpl. lia.
  - rewrite (filter_cons_True (λ likeId, likeId ≠ userId)) by done.
    rewrite (filter_cons_False (λ likeId, likeId = userId)) by done.
    simpl. lia.
Qed.

Lemma filter_same_nonempty (userId : ObjectId) (l : list ObjectId) :
  userId ∈ l → (1 ≤ List.length (filter (λ likeId, likeId = userId) l))%nat.
Proof.
  intros Hin.
  assert (userId ∈ filter (λ likeId, likeId = userId) l) as Hf
    by (by apply list_elem_of_filter).
  destruct (filter (λ likeId, likeId = userId) l); simpl; [|lia].
  by apply elem_of_nil in Hf.
Qed.

(** What one call does to the array. *)
Lemma toggleLike_likes (userId : ObjectId) (post : Post) :
  likes (toggleLike userId post) =
    if bool_decide (userId ∈ likes post)
    then filter (λ likeId, likeId ≠ userId) (likes post)
    else likes post ++ [userId].
Proof.
  unfold toggleLike. fold (isLikedBy post userId). rewrite isLikedBy_elem.
  case_bool_decide as Hin; simpl; [done|].
  unfold addLike. by rewrite (bool_decide_eq_false_2 _ Hin).
Qed.

Lemma toggleLike_flips (userId : ObjectId) (post : Post) :
  isLikedBy (toggleLike userId post) userId = negb (isLikedBy post userId).
Proof.
  rewrite !isLikedBy_elem, toggleLike_likes.
  destruct (decide (userId ∈ likes post)) as [Hin|Hin].
  - rewrite (bool_decide_eq_true_2 _ Hin). simpl.
    apply bool_decide_eq_false_2, filter_others_absent.
  - rewrite (bool_decide_eq_false_2 _ Hin). simpl.
    apply bool_decide_eq_true_2, elem_of_app. right.
    by apply list_elem_of_singleton.
Qed.

(** What two calls do to the array. *)
Lemma toggleLike_twice_likes (userId : ObjectId) (post : Post) :
  likes (toggleLike userId (toggleLike userId post)) =
    if bool_decide (userId ∈ likes post)
    then filter (λ likeId, likeId ≠ userId) (likes post) ++ [userId]
    else likes post.
Proof.
  rewrite (toggleLike_likes userId (toggleLike userId post)).
  rewrite <- (isLikedBy_elem (toggleLike userId post) userId), toggleLike_flips.
  rewrite isLikedBy_elem, (toggleLike_likes userId post).
  destruct (decide (userId ∈ likes post)) as [Hin|Hin].
  - by rewrite (bool_decide_eq_true_2 _ Hin).
  - rewrite (bool_decide_eq_false_2 _ Hin). simpl.
    rewrite list.filter_app, (filter_others_id userId (likes post) Hin).
    rewrite filter_cons_False by (by intros ?).
    rewrite filter_nil. by rewrite app_nil_r.
Qed.

(** C6, as the code has it.  For every post and every user, two calls of
    [toggleLike] with that user give back the liked state of the user; a
    call flips the liked state of the user and leaves the liked state of any
    other user; and the route reports the state and the count that result.
    Two calls give back the number of likes exactly if the array of likes
    holds the user at most once. *)
Theorem toggleLike_twice (userId : ObjectId) (post : Post) :
  isLikedBy (toggleLike userId (toggleLike userId post)) userId =
    isLikedBy post userId ∧
  (likeCount (toggleLike userId (toggleLike userId post)) = likeCount post ↔
   (List.length (filter (λ likeId, likeId = userId) (likes post)) ≤ 1)%nat) ∧
  isLikedBy (toggleLike userId post) userId = negb (isLikedBy post userId) ∧
  (∀ other, other ≠ userId →
     isLikedBy (toggleLike userId post) other = isLikedBy post other) ∧
  likeRoute userId (Some post) =
    (mkResponse OK200
       (if negb (isLikedBy post userId) then "Post liked" else "Post unliked")
       [("likeCount"%string, count (likes (toggleLike userId post)));
        ("isLiked"%string, JBool (negb (isLikedBy post userId)))],
     Some (toggleLike userId post)).
Proof.
  split_and!.
  - by rewrite !toggleLike_flips, negb_involutive.
  - unfold likeCount. rewrite toggleLike_twice_likes.
    pose proof (length_filter_split userId (likes post)) as Hsplit.
    case_bool_decide as Hin.
    + rewrite length_app. simpl.
      pose proof (filter_same_nonempty userId (likes post) Hin). lia.
    + assert (filter (λ likeId, likeId = userId) (likes post) = []) as ->.
      { destruct (filter (λ likeId, likeId = userId) (likes post)) as [|a l] eqn:Hf;
          [done|].
        assert (a ∈ filter (λ likeId, likeId = userId) (likes post)) as Ha
          by (rewrite Hf; by left).
        apply list_elem_of_filter in Ha as [-> Ha]. done. }
      simpl. split; [lia|done].
  - apply toggleLike_flips.
  - intros other Hother. rewrite !isLikedBy_elem, toggleLike_likes.
    apply bool_decide_ext. case_bool_decide as Hin.
    + rewrite list_elem_of_filter. split; [by intros [_ ?]|done].
    + rewrite elem_of_app, list_elem_of_singleton. split; [|by left].
      by intros [?|?].
  - unfold likeRoute. by rewrite toggleLike_flips.
Qed.

End PostLikes.

Section PostExamples.
Import HexId Examples PostModel.

(** C6, as stated, fails on a post whose array of likes holds the user
    twice: the first call removes both entries, the second adds one, and the
    count goes from 2 to 1. *)
Lemma toggleLike_twice_duplicate :
  likeCount doubly_liked = 2%nat ∧
  likes (toggleLike alice doubly_liked) = [] ∧
  likes (toggleLike alice (toggleLike alice doubly_liked)) = [alice] ∧
  likeCount (toggleLike alice (toggleLike alice doubly_liked)) ≠ likeCount doubly_liked.
Proof.
  split; [reflexivity|]. split; [reflexivity|]. split; [reflexivity|].
  vm_compute. lia.
Qed.

Lemma toggleLike_twice_witness :
  isLikedBy (toggleLike bob (toggleLike bob liked_by_bob)) bob =
    isLikedBy liked_by_bob bob ∧
  likeCount (toggleLike bob (toggleLike bob liked_by_bob)) = likeCount liked_by_bob ∧
  likeRoute bob (Some liked_by_bob) =
    (mkResponse OK200
       (if negb (isLikedBy liked_by_bob bob) then "Post liked" else "Post unliked")
       [("likeCount"%string, count (likes (toggleLike bob liked_by_bob)));
        ("isLiked"%string, JBool (negb (isLikedBy liked_by_bob bob)))],
     Some (toggleLike bob liked_by_bob)).
Proof.
  destruct (toggleLike_twice (H:=ops) bob liked_by_bob)
    as (Hstate & Hcount & _ & _ & Hroute).
  split; [exact Hstate|]. split; [|exact Hroute].
  apply Hcount. vm_compute. lia.
Defined.

End PostExamples.

(** ** Pagination *)

Section PaginationProperties.
Import Pagination.

(** [ceil_div] is the ceiling of the quotient. *)
Lemma ceil_div_spec (total limit : Z) :
  0 < limit →
  (ceil_div total limit - 1) * limit < total ≤ ceil_div total limit * limit.
Proof.
  intros Hl. unfold ceil_div.
  pose proof (Z.div_mod (- total) limit ltac:(lia)) as Hdm.
  pose proof (Z.mod_pos_bound (- total) limit Hl) as Hb.
  nia.
Qed.

Lemma ceil_div_nonneg (total limit : Z) :
  0 < limit → 0 ≤ total → 0 ≤ ceil_div total limit.
Proof.
  intros Hl Ht. pose proof (ceil_div_spec total limit Hl). nia.
Qed.

(** C7. For a list query that passes [validatePagination] over [total]
    documents, [page] is the parameter or 1 and is at least 1, [limit] is
    the parameter or 10 and lies between 1 and 100, [totalPages] is the
    ceiling of [total / limit], [hasNext] is [page < totalPages] and
    [hasPrev] is [page > 1]. *)
Theorem pagination_fields (qpage qlimit : QueryParam) (total : Z) :
  validatePagination qpage qlimit = true → 0 ≤ total →
  page (pagination qpage qlimit total) =
    match qpage with Integer n => n | _ => 1 end ∧
  1 ≤ page (pagination qpage qlimit total) ∧
  limit (pagination qpage qlimit total) =
    match qlimit with Integer n => n | _ => 10 end ∧
  1 ≤ limit (pagination qpage qlimit total) ≤ 100 ∧
  0 ≤ totalPages (pagination qpage qlimit total) ∧
  (totalPages (pagination qpage qlimit total) - 1) *
     limit (pagination qpage qlimit total) < total ∧
  total ≤ totalPages (pagination qpage qlimit total) *
            limit (pagination qpage qlimit total) ∧
  hasNext (pagination qpage qlimit total) =
    bool_decide (page (pagination qpage qlimit total)
                 < totalPages (pagination qpage qlimit total)) ∧
  hasPrev (pagination qpage qlimit total) =
    bool_decide (1 < page (pagination qpage qlimit total)).
Proof.
  intros [Hp Hl]%andb_true_iff Ht. simpl.
  assert (parseIntOr qpage 1 = match qpage with Integer n => n | _ => 1 end
          ∧ 1 ≤ parseIntOr qpage 1) as [Epage Hpage].
  { destruct qpage as [| |n]; simpl in *; try done.
    apply andb_true_iff in Hp as [Hn%Z.leb_le _].
    destruct (n =? 0) eqn:E; [apply Z.eqb_eq in E; lia|]. done. }
  assert (parseIntOr qlimit 10 = match qlimit with Integer n => n | _ => 10 end
          ∧ 1 ≤ parseIntOr qlimit 10 ≤ 100) as [Elimit Hlimit].
  { destruct qlimit as [| |n]; simpl in *; try done.
    apply andb_true_iff in Hl as [Hn%Z.leb_le Hm%Z.leb_le].
    destruct (n =? 0) eqn:E; [apply Z.eqb_eq in E; lia|]. done. }
  pose proof (ceil_div_spec total (parseIntOr qlimit 10) ltac:(lia)) as [Hlo Hhi].
  pose proof (ceil_div_nonneg total (parseIntOr qlimit 10) ltac:(lia) Ht) as Hnn.
  split_and!; try done; try lia.
  - destruct (parseIntOr qpage 1 <? ceil_div total (parseIntOr qlimit 10)) eqn:E.
    + symmetry. apply bool_decide_eq_true_2. by apply Z.ltb_lt.
    + symmetry. apply bool_decide_eq_false_2. apply Z.ltb_ge in E. lia.
  - destruct (1 <? parseIntOr qpage 1) eqn:E.
    + symmetry. apply bool_decide_eq_true_2. by apply Z.ltb_lt.
    + symmetry. apply bool_decide_eq_false_2. apply Z.ltb_ge in E. lia.
Qed.

Lemma pagination_fields_witness :
  page (pagination Missing (Integer 25) 101) = 1 ∧
  1 ≤ page (pagination Missing (Integer 25) 101) ∧
  limit (pagination Missing (Integer 25) 101) = 25 ∧
  1 ≤ limit (pagination Missing (Integer 25) 101) ≤ 100 ∧
  0 ≤ totalPages (pagination Missing (Integer 25) 101) ∧
  (totalPages (pagination Missing (Integer 25) 101) - 1) *
     limit (pagination Missing (Integer 25) 101) < 101 ∧
  101 ≤ totalPages (pagination Missing (Integer 25) 101) *
          limit (pagination Missing (Integer 25) 101) ∧
  hasNext (pagination Missing (Integer 25) 101) =
    bool_decide (page (pagination Missing (Integer 25) 101)
                 < totalPages (pagination Missing (Integer 25) 101)) ∧
  hasPrev (pagination Missing (Integer 25) 101) =
    bool_decide (1 < page (pagination Missing (Integer 25) 101)).
Proof.
  apply (pagination_fields Missing (Integer 25) 101); [reflexivity|lia].
Defined.

End PaginationProperties.

(** ** Marketplace listings: sold and available *)

Section ListingAvailability.
Context `{ObjectIdOps}.
Import ListingModel.

(** C10. [markAsSold] and [markAsAvailable] write [isAvailable] and no other
    field of the listing; the route that marks a listing as sold answers a
    request for a listing that is not available with Conflict and leaves the
    listing as it is, and marks an available listing. *)
Theorem mark_sold_frame (listing : MarketplaceListing) :
  (title (markAsSold listing) = title listing ∧
   description (markAsSold listing) = description listing ∧
   price (markAsSold listing) = price listing ∧
   seller (markAsSold listing) = seller listing ∧
   imageUrls (markAsSold listing) = imageUrls listing ∧
   category (markAsSold listing) = category listing ∧
   isAvailable (markAsSold listing) = false) ∧
  (title (markAsAvailable listing) = title listing ∧
   description (markAsAvailable listing) = description listing ∧
   price (markAsAvailable listing) = price listing ∧
   seller (markAsAvailable listing) = seller listing ∧
   imageUrls (markAsAvailable listing) = imageUrls listing ∧
   category (markAsAvailable listing) = category listing ∧
   isAvailable (markAsAvailable listing) = true) ∧
  (∀ id, isValid id = true → isAvailable listing = false →
     soldRoute id (Some listing) =
       (mkResponse Conflict409 "Listing is already marked as sold" [],
        Some listing)) ∧
  (∀ id, isValid id = true → isAvailable listing = true →
     soldRoute id (Some listing) =
       (mkResponse OK200 "Listing marked as sold"
          [("isAvailable"%string, JBool false)],
        Some (markAsSold listing))).
Proof.
  split_and!; try done.
  - intros id Hid Hsold. unfold soldRoute, validateMarkSold, validateObjectId.
    rewrite Hid. simpl. by rewrite Hsold.
  - intros id Hid Havail. unfold soldRoute, validateMarkSold, validateObjectId.
    rewrite Hid. simpl. by rewrite Havail.
Qed.

End ListingAvailability.

(** * Further properties of the models, the methods and the routes *)

(** ** Strings: [trim] *)

Section TrimProperties.

Lemma append_cons (x : ascii) (a b : string) :
  (String x a ++ b = String x (a ++ b))%string.
Proof. reflexivity. Qed.

Lemma string_app_assoc (a b c : string) : ((a ++ b) ++ c = a ++ (b ++ c))%string.
Proof.
  induction a as [|x a IH]; [reflexivity|].
  rewrite !append_cons. by f_equal.
Qed.

Lemma string_app_nil_r (a : string) : (a ++ "" = a)%string.
Proof.
  induction a as [|x a IH]; [reflexivity|].
  rewrite append_cons. by f_equal.
Qed.

Lemma rev_app_spec (s1 s2 : string) :
  String.rev_app s1 s2 = (String.rev s1 ++ s2)%string.
Proof.
  unfold String.rev. revert s2.
  induction s1 as [|a s1 IH]; intros s2; [reflexivity|].
  change (String.rev_app (String a s1) s2) with (String.rev_app s1 (String a s2)).
  change (String.rev_app (String a s1) "") with (String.rev_app s1 (String a "")).
  rewrite (IH (String a s2)), (IH (String a EmptyString)).
  by rewrite string_app_assoc.
Qed.

Lemma rev_cons (a : ascii) (s : string) :
  String.rev (String a s) = (String.rev s ++ String a "")%string.
Proof.
  unfold String.rev at 1.
  change (String.rev_app (String a s) "") with (String.rev_app s (String a "")).
  apply rev_app_spec.
Qed.

Lemma rev_app (s1 s2 : string) :
  String.rev (s1 ++ s2) = (String.rev s2 ++ String.rev s1)%string.
Proof.
  induction s1 as [|a s1 IH].
  - change (String.rev "") with EmptyString. by rewrite string_app_nil_r.
  - by rewrite append_cons, !rev_cons, IH, string_app_assoc.
Qed.

Lemma rev_involutive (s : string) : String.rev (String.rev s) = s.
Proof.
  induction s as [|a s IH]; [done|].
  by rewrite rev_cons, rev_app, IH.
Qed.

(** A string that is empty or starts with a character that is not
    whitespace. *)
Definition startsClean (s : string) : Prop :=
  match s with
  | EmptyString => True
  | String a _ => is_whitespace a = false
  end.

Lemma trimStart_clean (s : string) : startsClean (trimStart s).
Proof.
  induction s as [|a s IH]; simpl; [done|].
  by destruct (is_whitespace a) eqn:E.
Qed.

Lemma trimStart_id (s : string) : startsClean s → trimStart s = s.
Proof. destruct s as [|a s]; simpl; [done|]. by intros ->. Qed.

(** [trimStart] removes a prefix. *)
Lemma trimStart_prefix (s : string) :
  ∃ w, s = (w ++ trimStart s)%string.
Proof.
  induction s as [|a s [w IH]]; simpl.
  - by exists EmptyString.
  - destruct (is_whitespace a).
    + exists (String a w). rewrite append_cons. by rewrite <- IH.
    + by exists EmptyString.
Qed.

Lemma startsClean_app (s t : string) :
  s ≠ EmptyString → startsClean (s ++ t) → startsClean s.
Proof. by destruct s. Qed.

Lemma rev_nonempty (s : string) : s ≠ EmptyString → String.rev s ≠ EmptyString.
Proof.
  destruct s as [|a s]; [done|]. intros _. rewrite rev_cons.
  by destruct (String.rev s).
Qed.

(** Removing whitespace at the end keeps a clean start. *)
Lemma trimEnd_clean (y : string) :
  startsClean y → startsClean (String.rev (trimStart (String.rev y))).
Proof.
  intros Hy. destruct (trimStart_prefix (String.rev y)) as [w Hw].
  destruct (decide (trimStart (String.rev y) = EmptyString)) as [->|Hne]; [done|].
  apply (f_equal String.rev) in Hw. rewrite rev_involutive, rev_app in Hw.
  rewrite Hw in Hy.
  apply (startsClean_app _ (String.rev w)); [by apply rev_nonempty|exact Hy].
Qed.

Lemma trim_clean (s : string) :
  trimStart (trim s) = trim s ∧
  trimStart (String.rev (trim s)) = String.rev (trim s).
Proof.
  unfold trim. split.
  - apply trimStart_id, trimEnd_clean, trimStart_clean.
  - rewrite rev_involutive. apply trimStart_id, trimStart_clean.
Qed.

Lemma trim_idempotent (s : string) : trim (trim s) = trim s.
Proof.
  destruct (trim_clean s) as [H1 H2].
  unfold trim at 1. by rewrite H1, H2, rev_involutive.
Qed.

End TrimProperties.

(** ** Clubs: the other methods and routes *)

Section ClubMore.
Context `{ObjectIdOps}.
Import ClubModel.

Lemma filter_toString (userId : ObjectId) (l : list ObjectId) :
  filter (λ o, toString o ≠ toString userId) l = filter (λ o, o ≠ userId) l.
Proof.
  apply list_filter_iff. intros o. split.
  - intros Hne ->. done.
  - intros Hne E%toString_inj. done.
Qed.

(** [removeMember] on a club whose officers are members succeeds; the user
    is then neither a member nor an officer, and every other user is a
    member, or an officer, exactly if they were before. *)
Theorem removeMember_removes (userId : ObjectId) (c : Club) :
  officers c ⊆ members c →
  ∃ c', removeMember userId c = Stored c' ∧
        (userId ∉ members c') ∧ (userId ∉ officers c') ∧
        (∀ other, other ≠ userId →
           (other ∈ members c' ↔ other ∈ members c) ∧
           (other ∈ officers c' ↔ other ∈ officers c)) ∧
        officers c' ⊆ members c' ∧
        name c' = name c ∧ description c' = description c.
Proof.
  intros Hinv.
  destruct (call_invariant (RemoveMember userId) c Hinv) as (c' & Hc' & Hinv').
  simpl in Hc'. exists c'. split; [done|].
  pose proof (save_stored _ _ _ Hc') as ->. simpl. split_and!; try done.
  - by intros [Hne _]%list_elem_of_filter.
  - by intros [Hne _]%list_elem_of_filter.
  - intros other Hother. rewrite !list_elem_of_filter. split; split; tauto.
Qed.

(** [removeOfficer] on a club whose officers are members succeeds and
    leaves the members as they are: the user stays a member, is no officer
    any more, the other officers stay, and a second call changes nothing. *)
Theorem removeOfficer_keeps_member (userId : ObjectId) (c : Club) :
  officers c ⊆ members c →
  ∃ c', removeOfficer userId c = Stored c' ∧
        members c' = members c ∧
        (userId ∉ officers c') ∧
        (∀ other, other ≠ userId → other ∈ officers c' ↔ other ∈ officers c) ∧
        removeOfficer userId c' = Stored c'.
Proof.
  intros Hinv.
  destruct (call_invariant (RemoveOfficer userId) c Hinv) as (c' & Hc' & Hinv').
  simpl in Hc'. exists c'. split; [done|].
  pose proof (save_stored _ _ _ Hc') as Ec'.
  assert (userId ∉ officers c') as Hout.
  { rewrite Ec'. simpl. by intros [Hne _]%list_elem_of_filter. }
  split_and!; try done.
  - by rewrite Ec'.
  - intros other Hother. rewrite Ec'. simpl. rewrite list_elem_of_filter. tauto.
  - destruct (call_invariant (RemoveOfficer userId) c' Hinv') as (c'' & Hc'' & _).
    simpl in Hc''. rewrite Hc''. f_equal.
    pose proof (save_stored _ _ _ Hc'') as ->. simpl.
    rewrite (filter_others_id userId (officers c') Hout). by destruct c'.
Qed.

(** No mutator creates a duplicate: if [members] and [officers] hold every
    user at most once, they still do after a call. *)
Theorem mutators_keep_NoDup (m : Mutator) (c c' : Club) :
  NoDup (members c) → NoDup (officers c) →
  call m c = Stored c' →
  NoDup (members c') ∧ NoDup (officers c').
Proof.
  intros Hm Ho Hcall.
  assert (∀ l (u : ObjectId), NoDup l → u ∉ l → NoDup (l ++ [u])) as Hpush.
  { intros l u Hl Hu. apply list.NoDup_app. split_and!; [done| |apply NoDup_singleton].
    intros x Hx ->%list_elem_of_singleton. done. }
  destruct m as [u|u|u|u]; simpl in Hcall;
    pose proof (save_stored _ _ _ Hcall) as ->; clear Hcall; unfold includes.
  - destruct (decide (u ∈ members c)) as [Hin|Hin].
    + by rewrite (bool_decide_eq_true_2 _ Hin).
    + rewrite (bool_decide_eq_false_2 _ Hin). simpl. split; [by apply Hpush|done].
  - simpl. split; by apply list.NoDup_filter.
  - destruct (decide (u ∈ members c)) as [Hin|Hin];
      [rewrite (bool_decide_eq_true_2 _ Hin)|rewrite (bool_decide_eq_false_2 _ Hin)];
      simpl;
      (destruct (decide (u ∈ officers c)) as [Hio|Hio];
       [rewrite (bool_decide_eq_true_2 _ Hio)|rewrite (bool_decide_eq_false_2 _ Hio)]);
      simpl; split; try done; by apply Hpush.
  - simpl. split; [done|by apply list.NoDup_filter].
Qed.

Lemma createClub_shape (body : ClubBody) (c : Club) :
  createClub body = Stored c →
  name c = trim (default EmptyString (body_name body)) ∧
  1 ≤ strlen (name c) ≤ 100 ∧
  (∀ d, description c = Some d → strlen d ≤ 1000) ∧
  members c = map ObjectId_new (body_members body) ∧
  officers c = map ObjectId_new (body_officers body) ∧
  officers c ⊆ members c.
Proof.
  intros Hc. pose proof (createClub_invariant body c Hc) as Hinv.
  unfold createClub, castIds in Hc.
  destruct (forallb isValid (body_members body)); [|done].
  destruct (forallb isValid (body_officers body)); [|done].
  simpl in Hc. case_bool_decide as Hname; [done|].
  destruct (100 <? strlen (trim (default EmptyString (body_name body)))) eqn:Hlen;
    [done|].
  apply Z.ltb_ge in Hlen.
  assert (strlen (trim (default EmptyString (body_name body))) ≠ 0)
    by (by intros ?%strlen_zero).
  pose proof (strlen_nonneg (trim (default EmptyString (body_name body)))).
  destruct (body_description body) as [d|] eqn:Hd.
  - destruct (1000 <? strlen d) eqn:Hdl; [done|]. apply Z.ltb_ge in Hdl.
    repeat case_match; try done. injection Hc as <-. simpl.
    split_and!; try done; try lia. by intros ? [= <-].
  - repeat case_match; try done. injection Hc as <-. simpl.
    split_and!; try done; lia.
Qed.

(** What a club that creation stores satisfies: its name is the trimmed
    name of the body and has 1 to 100 characters, a description has at most
    1000 characters, its members and officers are those of the body, and the
    officers are members. *)
Theorem createClub_stored (body : ClubBody) (c : Club) :
  createClub body = Stored c →
  name c = trim (default EmptyString (body_name body)) ∧
  1 ≤ strlen (name c) ≤ 100 ∧
  (∀ d, description c = Some d → strlen d ≤ 1000) ∧
  members c = map ObjectId_new (body_members body) ∧
  officers c = map ObjectId_new (body_officers body) ∧
  officers c ⊆ members c.
Proof. exact (createClub_shape body c). Qed.

(** A create request that names an officer who is not among its members is
    refused. *)
Theorem createClub_outsider_officer (body : ClubBody) (officer : string) :
  officer ∈ body_officers body →
  ObjectId_new officer ∉ map ObjectId_new (body_members body) →
  ∃ msg, createClub body = Invalid msg.
Proof.
  intros Hin Hout. destruct (createClub body) as [c|msg] eqn:Hc; [|by eexists].
  destruct (createClub_shape body c Hc) as (_ & _ & _ & Hm & Ho & Hsub).
  exfalso. apply Hout. rewrite <- Hm. apply Hsub. rewrite Ho.
  apply list_elem_of_fmap. by exists officer.
Qed.

(** A club that satisfies its schema has its officers among its members. *)
Lemma validateSync_officers (c : Club) :
  validateSync c = None → officers c ⊆ members c.
Proof.
  unfold validateSync, validatePaths. intros Hv.
  apply officers_path_valid.
  destruct (validatePath c name_path); [done|].
  destruct (validatePath c description_path); [done|].
  destruct (validatePath c members_path); [done|].
  by destruct (validatePath c officers_path).
Qed.

Lemma validateJoinClub_valid (id request : string) :
  isValid id = true → isValid request = true → request ≠ EmptyString →
  validateJoinClub id request = true ∧ validateLeaveClub id request = true.
Proof.
  intros Hid Hr Hne.
  unfold validateJoinClub, validateLeaveClub, validateObjectId,
    validateRequiredObjectId.
  by rewrite Hid, Hr, (bool_decide_eq_false_2 _ Hne).
Qed.

(** [l.some(x => x.toString() === userId)] by cases. *)
Lemma prints_as_some (request : string) (l : list ObjectId) :
  existsb (λ o, bool_decide (toString o = request)) l = true ↔
  ∃ o, o ∈ l ∧ toString o = request.
Proof.
  rewrite existsb_exists. split.
  - intros (o & Ho & Hp). exists o. split; [by apply list_elem_of_In|].
    by apply bool_decide_eq_true in Hp.
  - intros (o & Ho & Hp). exists o. split; [by apply list_elem_of_In|].
    by apply bool_decide_eq_true.
Qed.

(** The answer of the join route to a request with well-formed
    identifiers, on a club whose officers are members. *)
Lemma joinClub_answer
    (users : list ObjectId) (id request : string) (c : Club) :
  isValid id = true → isValid request = true → request ≠ EmptyString →
  officers c ⊆ members c →
  joinClub users id request (Some c) =
    if existsb (λ m, bool_decide (toString m = request)) (members c) then
      (mkResponse Conflict409 "User is already a member of this club" [], Some c)
    else
      let joined :=
        if bool_decide (ObjectId_new request ∈ members c) then c
        else mkClub (name c) (description c)
               (members c ++ [ObjectId_new request]) (officers c) in
      (mkResponse OK200 "Successfully joined club"
         [("memberCount"%string, count (populate users (members joined)));
          ("isMember"%string, JBool true)],
       Some joined).
Proof.
  intros Hid Hr Hne Hinv. unfold joinClub.
  destruct (validateJoinClub_valid id request Hid Hr Hne) as [-> _].
  rewrite Hid, Hr, (bool_decide_eq_false_2 _ Hne). simpl.
  destruct (existsb _ (members c)); [done|].
  destruct (call_invariant (AddMember (ObjectId_new request)) c Hinv)
    as (c' & Hc' & _).
  simpl in Hc'. rewrite Hc'. apply save_stored in Hc'. subst c'.
  unfold includes. by destruct (bool_decide (ObjectId_new request ∈ members c)).
Qed.

(** The answer of the leave route to a request with well-formed
    identifiers, on a club whose officers are members. *)
Lemma leaveClub_answer (id request : string) (c : Club) :
  isValid id = true → isValid request = true → request ≠ EmptyString →
  officers c ⊆ members c →
  leaveClub id request (Some c) =
    if existsb (λ m, bool_decide (toString m = request)) (members c) then
      let left :=
        mkClub (name c) (description c)
          (filter (λ m, m ≠ ObjectId_new request) (members c))
          (filter (λ o, o ≠ ObjectId_new request) (officers c)) in
      (mkResponse OK200 "Successfully left club"
         [("memberCount"%string, count (members left));
          ("isMember"%string, JBool false)],
       Some left)
    else
      (mkResponse NotFound404 "User is not a member of this club" [], Some c).
Proof.
  intros Hid Hr Hne Hinv. unfold leaveClub.
  destruct (validateJoinClub_valid id request Hid Hr Hne) as [_ ->].
  rewrite Hid, Hr, (bool_decide_eq_false_2 _ Hne). simpl.
  destruct (existsb _ (members c)); [|done]. simpl.
  destruct (call_invariant (RemoveMember (ObjectId_new request)) c Hinv)
    as (c' & Hc' & _).
  simpl in Hc'. rewrite Hc'. apply save_stored in Hc'. by subst c'.
Qed.

(** POST /api/clubs/:id/join with validation, for a request with
    well-formed identifiers on a club that satisfies its schema.  The
    handler compares the request's [userId] with each member as it prints.
    If some member prints as the request, the answer is Conflict and the
    club stays as it is.  If none does although the request denotes a
    member (its identifier spelled in another way), the answer is 200 and
    the club stays as it is.  If the request denotes a user who is no
    member, that user is appended to the members and the answer is 200.
    The count of the answer is that of the members with a User document. *)
Theorem joinClub_validated
    (users : list ObjectId) (id request : string) (c : Club) :
  isValid id = true → isValid request = true → request ≠ EmptyString →
  validateSync c = None →
  ((∃ m, m ∈ members c ∧ toString m = request) →
     joinClub users id request (Some c) =
       (mkResponse Conflict409 "User is already a member of this club" [],
        Some c)) ∧
  ((∀ m, m ∈ members c → toString m ≠ request) →
   ObjectId_new request ∈ members c →
     joinClub users id request (Some c) =
       (mkResponse OK200 "Successfully joined club"
          [("memberCount"%string, count (populate users (members c)));
           ("isMember"%string, JBool true)],
        Some c)) ∧
  (ObjectId_new request ∉ members c →
     joinClub users id request (Some c) =
       (mkResponse OK200 "Successfully joined club"
          [("memberCount"%string,
            count (populate users (members c ++ [ObjectId_new request])));
           ("isMember"%string, JBool true)],
        Some (mkClub (name c) (description c)
                (members c ++ [ObjectId_new request]) (officers c)))).
Proof.
  intros Hid Hr Hne Hinv%validateSync_officers.
  rewrite (joinClub_answer users id request c Hid Hr Hne Hinv).
  split_and!.
  - intros Hsome%prints_as_some. by rewrite Hsome.
  - intros Hnone%prints_as_none Hin.
    by rewrite Hnone, (bool_decide_eq_true_2 _ Hin).
  - intros Hout.
    destruct (existsb _ (members c)) eqn:Hsome.
    + exfalso. by apply Hout, prints_as_member.
    + by rewrite (bool_decide_eq_false_2 _ Hout).
Qed.

(** Joining and then leaving, on the routes with validation, for a club
    that satisfies its schema and a request that denotes a user who is no
    member: the join appends the user and answers 200.  If the request
    carries the identifier as it prints, the leave answers 200 and gives
    back the club as it was; if it spells the identifier in another way, the
    leave answers 404 and the user stays a member. *)
Theorem join_then_leave
    (users : list ObjectId) (id request : string) (c : Club) :
  isValid id = true → isValid request = true → request ≠ EmptyString →
  validateSync c = None → ObjectId_new request ∉ members c →
  ∃ joined,
    status (fst (joinClub users id request (Some c))) = OK200 ∧
    snd (joinClub users id request (Some c)) = Some joined ∧
    members joined = members c ++ [ObjectId_new request] ∧
    (toString (ObjectId_new request) = request →
       status (fst (leaveClub id request (Some joined))) = OK200 ∧
       snd (leaveClub id request (Some joined)) = Some c) ∧
    (toString (ObjectId_new request) ≠ request →
       leaveClub id request (Some joined) =
         (mkResponse NotFound404 "User is not a member of this club" [],
          Some joined)).
Proof.
  intros Hid Hr Hne Hinv%validateSync_officers Hout.
  rewrite (joinClub_answer users id request c Hid Hr Hne Hinv).
  destruct (existsb _ (members c)) eqn:Hsome.
  { exfalso. by apply Hout, prints_as_member. }
  rewrite (bool_decide_eq_false_2 _ Hout). simpl.
  eexists. split; [done|]. split; [reflexivity|]. split; [done|].
  set (joined := mkClub _ _ _ _).
  assert (officers joined ⊆ members joined) as Hinv'.
  { simpl. by apply list_subseteq_app_l. }
  rewrite (leaveClub_answer id request joined Hid Hr Hne Hinv'). simpl.
  rewrite existsb_app, Hsome. simpl. rewrite orb_false_r. split.
  - intros Hp. rewrite (bool_decide_eq_true_2 _ Hp). simpl. split; [done|].
    destruct c as [n d ms os]. simpl in *. do 2 f_equal.
    + rewrite list.filter_app, (filter_others_id _ ms Hout).
      rewrite filter_cons_False by (by intros ?).
      by rewrite filter_nil, app_nil_r.
    + apply filter_others_id. intros Hin'. by apply Hout, Hinv.
  - intros Hp. by rewrite (bool_decide_eq_false_2 _ Hp).
Qed.

(** DELETE /api/clubs/:id/leave with validation, for a request with
    well-formed identifiers on a club that satisfies its schema.  If some
    member prints as the request's [userId], the user it denotes is removed
    from the members and from the officers, everybody else stays, and the
    answer is 200.  If no member prints as the request, the answer is 404
    and the club stays as it is, also when the request denotes a member
    with the identifier spelled in another way. *)
Theorem leaveClub_member_or_not_found (id request : string) (c : Club) :
  isValid id = true → isValid request = true → request ≠ EmptyString →
  validateSync c = None →
  ((∃ m, m ∈ members c ∧ toString m = request) →
     ∃ c', leaveClub id request (Some c) =
             (mkResponse OK200 "Successfully left club"
                [("memberCount"%string, count (members c'));
                 ("isMember"%string, JBool false)], Some c') ∧
           members c' = filter (λ m, m ≠ ObjectId_new request) (members c) ∧
           officers c' = filter (λ o, o ≠ ObjectId_new request) (officers c) ∧
           (ObjectId_new request ∉ members c') ∧
           (ObjectId_new request ∉ officers c') ∧
           name c' = name c ∧ description c' = description c) ∧
  ((∀ m, m ∈ members c → toString m ≠ request) →
     leaveClub id request (Some c) =
       (mkResponse NotFound404 "User is not a member of this club" [], Some c)).
Proof.
  intros Hid Hr Hne Hinv%validateSync_officers.
  rewrite (leaveClub_answer id request c Hid Hr Hne Hinv). split.
  - intros Hsome%prints_as_some. rewrite Hsome. eexists. split; [reflexivity|].
    simpl. split_and!; try done; by intros [Hn _]%list_elem_of_filter.
  - intros Hnone%prints_as_none. by rewrite Hnone.
Qed.

End ClubMore.

Section ClubMoreExamples.
Import HexId Examples ClubModel.

Lemma chess_invariant : officers chess ⊆ members chess.
Proof.
  apply reachable_invariant, (reachable_create chess_body). reflexivity.
Qed.

Lemma chess_NoDup : NoDup (members chess) ∧ NoDup (officers chess).
Proof.
  split.
  - apply list.NoDup_cons. split; [|apply NoDup_singleton].
    intros E%list_elem_of_singleton. by apply alice_bob.
  - apply NoDup_singleton.
Qed.

Lemma carol_outsider : carol ∉ members chess.
Proof.
  intros [E|[E|E%elem_of_nil]%elem_of_cons]%elem_of_cons; [| |done].
  - by apply alice_carol.
  - by apply bob_carol.
Qed.

Lemma removeMember_removes_witness :
  ∃ c', removeMember alice chess = Stored c' ∧
        (alice ∉ members c') ∧ (alice ∉ officers c').
Proof.
  destruct (removeMember_removes (H:=ops) alice chess chess_invariant)
    as (c' & Hc' & Hm & Ho & _).
  exists c'. done.
Defined.

Lemma removeOfficer_keeps_member_witness :
  ∃ c', removeOfficer alice chess = Stored c' ∧ members c' = members chess.
Proof.
  destruct (removeOfficer_keeps_member (H:=ops) alice chess chess_invariant)
    as (c' & Hc' & Hm & _).
  exists c'. done.
Defined.

Lemma mutators_keep_NoDup_witness :
  NoDup [alice; bob; carol] ∧ NoDup [alice].
Proof.
  apply (mutators_keep_NoDup (H:=ops) (@AddMember ops carol) chess
           (@mkClub ops "Chess Club" None [alice; bob; carol] [alice])).
  - apply chess_NoDup.
  - apply chess_NoDup.
  - reflexivity.
Defined.

Lemma createClub_stored_witness :
  name chess = "Chess Club"%string ∧ 1 ≤ strlen (name chess) ≤ 100.
Proof.
  destruct (createClub_stored (H:=ops) chess_body chess) as (Hn & Hl & _).
  - reflexivity.
  - split; [exact Hn|exact Hl].
Defined.

Lemma createClub_outsider_officer_witness :
  ∃ msg,
    createClub
      (mkClubBody (Some "Chess Club"%string) None
         ["64f8a8b4c5d2e1f2a3b4c5d6"%string] ["64f8a8b4c5d2e1f2a3b4c5d7"%string])
    = Invalid msg.
Proof.
  apply (createClub_outsider_officer (H:=ops) _ "64f8a8b4c5d2e1f2a3b4c5d7").
  - simpl. by apply list_elem_of_singleton.
  - simpl. intros E%list_elem_of_singleton. by apply alice_bob.
Defined.

Lemma joinClub_validated_witness :
  joinClub [alice; bob; carol] club_id (toString carol) (Some chess) =
    (mkResponse OK200 "Successfully joined club"
       [("memberCount"%string, JNumber 3); ("isMember"%string, JBool true)],
     Some (mkClub "Chess Club" None [alice; bob; carol] [alice])).
Proof.
  apply (joinClub_validated (H:=ops) [alice; bob; carol] club_id
           (@toString ops carol) chess).
  - reflexivity.
  - reflexivity.
  - done.
  - reflexivity.
  - apply carol_outsider.
Defined.

(** Bob is a member of the club; a request that spells his identifier in
    upper case is answered 200, not Conflict, and the club stays as it
    is. *)
Example joinClub_upper_case :
  joinClub [alice; bob; carol] club_id BOB_UPPER (Some chess) =
    (mkResponse OK200 "Successfully joined club"
       [("memberCount"%string, JNumber 2); ("isMember"%string, JBool true)],
     Some chess).
Proof. reflexivity. Qed.

(** A club with an officer who is no member cannot be saved: the join of a
    third user is answered 500 and nothing is stored. *)
Example joinClub_outsider_officer :
  joinClub [alice; bob; carol] club_id (toString carol)
    (Some (mkClub "Chess Club" None [alice] [bob])) =
    (mkResponse InternalError500 "Failed to join club" [],
     Some (mkClub "Chess Club" None [alice] [bob])).
Proof. reflexivity. Qed.

Lemma join_then_leave_witness :
  ∃ joined,
    status (fst (joinClub [alice; bob] club_id (toString carol) (Some chess)))
      = OK200 ∧
    snd (joinClub [alice; bob] club_id (toString carol) (Some chess))
      = Some joined ∧
    members joined = members chess ++ [carol] ∧
    (toString carol = toString carol →
       status (fst (leaveClub club_id (toString carol) (Some joined))) = OK200 ∧
       snd (leaveClub club_id (toString carol) (Some joined)) = Some chess) ∧
    (toString carol ≠ toString carol →
       leaveClub club_id (toString carol) (Some joined) =
         (mkResponse NotFound404 "User is not a member of this club" [],
          Some joined)).
Proof.
  apply (join_then_leave (H:=ops) [alice; bob] club_id (@toString ops carol)
           chess).
  - reflexivity.
  - reflexivity.
  - done.
  - reflexivity.
  - apply carol_outsider.
Defined.

Lemma leaveClub_member_or_not_found_witness :
  leaveClub club_id BOB_UPPER (Some chess) =
    (mkResponse NotFound404 "User is not a member of this club" [], Some chess).
Proof.
  apply (leaveClub_member_or_not_found (H:=ops) club_id BOB_UPPER chess).
  - reflexivity.
  - reflexivity.
  - done.
  - reflexivity.
  - intros m [->|[->|E%elem_of_nil]%elem_of_cons]%elem_of_cons; done.
Defined.

End ClubMoreExamples.

(** ** Events: leaving, and what attendance keeps *)

Section EventMore.
Context `{ObjectIdOps}.
Import EventModel.

(** The validators of an event do not read its attendees. *)
Lemma validateEvent_attendees (now : Z) (event : Event) (l : list ObjectId) :
  validateEvent now
    (mkEvent (title event) (description event) (startTime event)
       (endTime event) (host event) l (coordinates event)) =
  validateEvent now event.
Proof. reflexivity. Qed.

(** An event that passes its validators at one time passes them at any
    time before its start. *)
Lemma validateEvent_later (now1 now2 : Z) (event : Event) :
  validateEvent now1 event = None → now2 < startTime event →
  validateEvent now2 event = None.
Proof.
  rewrite !validateEvent_None. intros (Ht & Hd & _ & He & Hc) Hnow.
  done.
Qed.

(** The answer of the leave route to a request with well-formed
    identifiers. *)
Lemma leaveRoute_answer (now : Z) (id request : string) (event : Event) :
  isValid id = true → isValid request = true → request ≠ EmptyString →
  leaveRoute now id request (Some event) =
    match validateEvent now event with
    | None =>
        (mkResponse OK200 "Successfully left event"
           [("attendeeCount"%string,
             count (filter (λ a, toString a ≠ request) (attendees event)));
            ("isAttending"%string, JBool false)],
         Some (mkEvent (title event) (description event) (startTime event)
                 (endTime event) (host event)
                 (filter (λ a, toString a ≠ request) (attendees event))
                 (coordinates event)))
    | Some _ =>
        (mkResponse InternalError500 "Failed to leave event" [], Some event)
    end.
Proof.
  intros Hid Hr Hne. unfold leaveRoute, save.
  rewrite Hid, Hr, (bool_decide_eq_false_2 _ Hne). simpl.
  rewrite validateEvent_attendees. by destruct (validateEvent now event).
Qed.

Lemma filter_prints_id (request : string) (l : list ObjectId) :
  (∀ a, a ∈ l → toString a ≠ request) →
  filter (λ a, toString a ≠ request) l = l.
Proof.
  induction l as [|a l IH]; [done|]. intros Hall.
  rewrite filter_cons_True by (apply Hall; by left).
  rewrite IH; [done|]. intros o Ho. apply Hall. by right.
Qed.

(** DELETE /api/events/:id/attend, for a request with well-formed
    identifiers.  On an event that satisfies its schema at the time of the
    request, and so is still to start, the answer is 200; the attendees that
    print as the request's [userId] are removed and the others stay, in
    their order; if no attendee prints as the request nothing changes, and
    so a second request changes nothing.  On an event that does not satisfy
    its schema, as one that has started, the save is refused: the answer is
    500 and the event stays as it is. *)
Theorem leaveEvent_idempotent
    (now : Z) (id request : string) (event : Event) :
  isValid id = true → isValid request = true → request ≠ EmptyString →
  (validateEvent now event = None →
     ∃ event',
       leaveRoute now id request (Some event) =
         (mkResponse OK200 "Successfully left event"
            [("attendeeCount"%string, count (attendees event'));
             ("isAttending"%string, JBool false)],
          Some event') ∧
       attendees event' =
         filter (λ a, toString a ≠ request) (attendees event) ∧
       (∀ a, a ∈ attendees event' → toString a ≠ request) ∧
       (∀ user, toString user = request →
          attendees event' = filter (λ a, a ≠ user) (attendees event)) ∧
       ((∀ a, a ∈ attendees event → toString a ≠ request) → event' = event) ∧
       leaveRoute now id request (Some event') =
         leaveRoute now id request (Some event)) ∧
  (validateEvent now event ≠ None →
     leaveRoute now id request (Some event) =
       (mkResponse InternalError500 "Failed to leave event" [], Some event)) ∧
  (startTime event ≤ now →
     leaveRoute now id request (Some event) =
       (mkResponse InternalError500 "Failed to leave event" [], Some event)).
Proof.
  intros Hid Hr Hne.
  assert (validateEvent now event ≠ None →
          leaveRoute now id request (Some event) =
            (mkResponse InternalError500 "Failed to leave event" [], Some event))
    as Hrefused.
  { intros Hv. rewrite (leaveRoute_answer now id request event Hid Hr Hne).
    by destruct (validateEvent now event). }
  split_and!; [|done|].
  - intros Hv. rewrite (leaveRoute_answer now id request event Hid Hr Hne), Hv.
    exists (mkEvent (title event) (description event) (startTime event)
              (endTime event) (host event)
              (filter (λ a, toString a ≠ request) (attendees event))
              (coordinates event)).
    split; [reflexivity|]. simpl.
    assert (∀ a, a ∈ filter (λ a, toString a ≠ request) (attendees event) →
                 toString a ≠ request) as Hout.
    { by intros a [Hp _]%list_elem_of_filter. }
    split_and!; try done.
    + intros user <-. apply filter_toString.
    + intros Hnone. rewrite (filter_prints_id request _ Hnone). by destruct event.
    + rewrite (leaveRoute_answer now id request _ Hid Hr Hne).
      rewrite validateEvent_attendees, Hv. simpl.
      by rewrite (filter_prints_id request _ Hout).
  - intros Hstarted. by apply Hrefused, validateEvent_started.
Qed.

(** Attending and then leaving, for a request with well-formed identifiers
    that no attendee and not the host prints as, on an event that satisfies
    its schema at the time of the first request: the user that the request
    denotes is appended and the answer is 200.  A leave before the start,
    with the identifier as it prints, answers 200 and gives back the event
    as it was; with the identifier spelled in another way it answers 200
    and removes nobody.  A leave from the start on answers 500 and removes
    nobody. *)
Theorem attend_then_leave
    (users : list ObjectId) (now1 now2 : Z) (id request : string)
    (event : Event) :
  isValid id = true → isValid request = true → request ≠ EmptyString →
  validateEvent now1 event = None →
  (∀ a, a ∈ attendees event → toString a ≠ request) →
  toString (host event) ≠ request →
  ∃ joined,
    status (fst (attendRoute users now1 id request (Some event))) = OK200 ∧
    snd (attendRoute users now1 id request (Some event)) = Some joined ∧
    attendees joined = attendees event ++ [ObjectId_new request] ∧
    (now2 < startTime event → toString (ObjectId_new request) = request →
       status (fst (leaveRoute now2 id request (Some joined))) = OK200 ∧
       snd (leaveRoute now2 id request (Some joined)) = Some event) ∧
    (now2 < startTime event → toString (ObjectId_new request) ≠ request →
       status (fst (leaveRoute now2 id request (Some joined))) = OK200 ∧
       snd (leaveRoute now2 id request (Some joined)) = Some joined) ∧
    (startTime event ≤ now2 →
       leaveRoute now2 id request (Some joined) =
         (mkResponse InternalError500 "Failed to leave event" [], Some joined)).
Proof.
  intros Hid Hr Hne Hv Hnone Hhost.
  pose proof (validateEvent_upcoming now1 event Hv) as Hnow1.
  rewrite (attendRoute_cases users now1 id request event Hid Hr Hne).
  rewrite (proj2 (Z.leb_gt _ _) Hnow1).
  rewrite (proj2 (prints_as_none request (attendees event)) Hnone).
  rewrite (bool_decide_eq_false_2 _ Hhost), Hv. simpl.
  eexists. split; [done|]. split; [reflexivity|]. split; [done|].
  set (joined := mkEvent _ _ _ _ _ _ _).
  rewrite !(leaveRoute_answer now2 id request joined Hid Hr Hne).
  unfold joined. rewrite validateEvent_attendees. simpl.
  rewrite list.filter_app, (filter_prints_id request _ Hnone).
  split_and!.
  - intros Hnow2 Hp. rewrite (validateEvent_later now1 now2 event Hv Hnow2).
    simpl. split; [done|].
    rewrite filter_cons_False by (by intros ?).
    rewrite filter_nil, app_nil_r. by destruct event.
  - intros Hnow2 Hp. rewrite (validateEvent_later now1 now2 event Hv Hnow2).
    simpl. split; [done|].
    rewrite filter_cons_True by done. by rewrite filter_nil.
  - intros Hstarted.
    destruct (validateEvent now2 event) eqn:Hv2; [done|].
    by apply validateEvent_started in Hv2.
Qed.

Lemma attendRoute_outcomes
    (users : list ObjectId) (now : Z) (id request : string) (event : Event) :
  (status (fst (attendRoute users now id request (Some event))) = OK200 ∧
   isValid id = true ∧ isValid request = true ∧
   validateEvent now event = None ∧ now < startTime event ∧
   (∀ a, a ∈ attendees event → toString a ≠ request) ∧
   toString (host event) ≠ request ∧
   snd (attendRoute users now id request (Some event)) =
     Some (mkEvent (title event) (description event) (startTime event)
             (endTime event) (host event)
             (attendees event ++ [ObjectId_new request]) (coordinates event)))
  ∨
  (success (fst (attendRoute users now id request (Some event))) = false ∧
   snd (attendRoute users now id request (Some event)) = Some event).
Proof.
  destruct (validateJoinEvent id request) eqn:Hvalid.
  2: { right. unfold attendRoute. by rewrite Hvalid. }
  assert (isValid id = true ∧ isValid request = true ∧ request ≠ EmptyString)
    as (Hid & Hr & Hne).
  { unfold validateJoinEvent, validateObjectId, validateRequiredObjectId
      in Hvalid.
    apply andb_true_iff in Hvalid as [Hid [Hne Hr]%andb_true_iff].
    apply negb_true_iff, bool_decide_eq_false in Hne. done. }
  rewrite (attendRoute_cases users now id request event Hid Hr Hne).
  destruct (startTime event <=? now) eqn:Hnow; [by right|].
  apply Z.leb_gt in Hnow.
  destruct (existsb _ (attendees event)) eqn:Hsome; [by right|].
  pose proof (proj1 (prints_as_none request (attendees event)) Hsome) as Hnone.
  case_bool_decide as Hhost; [by right|].
  destruct (validateEvent now event) eqn:Hv; [by right|].
  left. done.
Qed.

(** POST /api/events/:id/attend, for any request.  Either the answer is
    200, and then the identifiers of the request are well formed, the event
    satisfies its schema and is still to start, no attendee and not the
    host prints as the request's [userId], and the user that the request
    denotes is appended to the attendees; or the answer is an error and the
    event stays as it is. *)
Theorem attendEvent_outcome
    (users : list ObjectId) (now : Z) (id request : string) (event : Event) :
  (status (fst (attendRoute users now id request (Some event))) = OK200 ∧
   isValid id = true ∧ isValid request = true ∧
   validateEvent now event = None ∧ now < startTime event ∧
   (∀ a, a ∈ attendees event → toString a ≠ request) ∧
   toString (host event) ≠ request ∧
   snd (attendRoute users now id request (Some event)) =
     Some (mkEvent (title event) (description event) (startTime event)
             (endTime event) (host event)
             (attendees event ++ [ObjectId_new request]) (coordinates event)))
  ∨
  (success (fst (attendRoute users now id request (Some event))) = false ∧
   snd (attendRoute users now id request (Some event)) = Some event).
Proof. exact (attendRoute_outcomes users now id request event). Qed.

(** For a request that carries the identifier of a user as it prints,
    attendance keeps the attendees a set that the host is not part of: if
    no attendee is listed twice and the host is not listed, the same holds
    for the event that the request leaves behind. *)
Theorem attendEvent_keeps_set
    (users : list ObjectId) (now : Z) (id request : string)
    (event event' : Event) :
  toString (ObjectId_new request) = request →
  NoDup (attendees event) → host event ∉ attendees event →
  snd (attendRoute users now id request (Some event)) = Some event' →
  NoDup (attendees event') ∧ (host event' ∉ attendees event').
Proof.
  intros Hprint Hnd Hhost Hs.
  destruct (attendRoute_outcomes users now id request event)
    as [(_ & _ & _ & _ & _ & Hnone & Hne & Hj)|[_ Hf]].
  - rewrite Hj in Hs. injection Hs as <-. simpl. split.
    + apply list.NoDup_app. split_and!; [done| |apply NoDup_singleton].
      intros x Hx ->%list_elem_of_singleton. by apply (Hnone _ Hx).
    + intros [Hin|Hin%list_elem_of_singleton]%elem_of_app; [done|].
      apply Hne. by rewrite Hin.
  - rewrite Hf in Hs. by injection Hs as <-.
Qed.

(** What an event that the create route with validation stores satisfies:
    the answer is 201, the title is the trimmed title of the request and has
    3 to 100 characters, the description is the trimmed description and has
    10 to 1000 characters, the event starts after the time of the request
    and ends after it starts. *)
Theorem createEventRoute_stored_valid (now : Z) (body : EventBody) (event : Event) :
  snd (createEventRoute now body) = Some event →
  status (fst (createEventRoute now body)) = Created201 ∧
  title event = trim (default EmptyString (body_title body)) ∧
  3 ≤ strlen (title event) ≤ 100 ∧
  description event = trim (default EmptyString (body_description body)) ∧
  10 ≤ strlen (description event) ≤ 1000 ∧
  body_startTime body = IsoDate (startTime event) ∧
  body_endTime body = IsoDate (endTime event) ∧
  now < startTime event ∧ startTime event < endTime event.
Proof.
  intros Hs. pose proof (createEventRoute_stored now body event Hs) as Hc.
  destruct (createEvent_valid now _ event Hc) as (_ & _ & Hfut & Hord & _).
  destruct (createEvent_dates now _ event Hc) as [Hst Hen]. simpl in Hst, Hen.
  assert (fieldFails "title" (validateCreateEvent body) = false ∧
          fieldFails "description" (validateCreateEvent body) = false) as [Ht Hd].
  { unfold createEventRoute in Hs. by destruct (validateCreateEvent body). }
  rewrite fieldFails_title, negb_false_iff in Ht. apply isLength_spec in Ht.
  rewrite fieldFails_description, negb_false_iff in Hd. apply isLength_spec in Hd.
  assert (title event = trim (default EmptyString (body_title body)) ∧
          description event = trim (default EmptyString (body_description body)))
    as [Et Ed].
  { destruct (createEvent_saves now _ event Hc)
      as (t & d & s & e & h & Hbt & Hbd & _ & _ & _ & -> & _).
    simpl in Hbt, Hbd. injection Hbt as <-. injection Hbd as <-. simpl.
    by rewrite trim_idempotent. }
  split_and!; try done; try (rewrite ?Et, ?Ed; lia).
  unfold createEventRoute in *. destruct (validateCreateEvent body); [|done].
  destruct (match body_startTime (sanitizeCreateEvent body) with
            | IsoDate s => s <=? now | _ => false end); [done|].
  by destruct (createEvent now (sanitizeCreateEvent body)).
Qed.

(** A create request whose end is not after its start is refused by the
    validation chain, on the field [endTime], and nothing is stored. *)
Theorem createEventRoute_order_rejected (now : Z) (body : EventBody) (s e : Z) :
  body_startTime body = IsoDate s → body_endTime body = IsoDate e → e ≤ s →
  fieldFails "endTime" (validateCreateEvent body) = true ∧
  createEventRoute now body = (validationFailed, None).
Proof.
  intros Hs He Hle.
  assert (fieldFails "endTime" (validateCreateEvent body) = true) as Hf.
  { unfold validateCreateEvent, fieldFails. rewrite Hs, He. simpl.
    rewrite (proj2 (Z.leb_le e s) Hle).
    rewrite !existsb_app. simpl. by rewrite !orb_true_r. }
  split; [done|]. unfold createEventRoute.
  by destruct (validateCreateEvent body).
Qed.

End EventMore.

Section EventMoreExamples.
Import HexId Examples EventModel.

Lemma leaveEvent_idempotent_witness :
  leaveRoute 5000 event_id BOB_UPPER (Some seminar) =
    (mkResponse InternalError500 "Failed to leave event" [], Some seminar).
Proof.
  destruct (leaveEvent_idempotent (H:=ops) 5000 event_id BOB_UPPER seminar)
    as (_ & _ & Hstarted); [reflexivity|reflexivity|done|].
  apply Hstarted. simpl. lia.
Defined.

(** Before the start, the leave of an attendee whose identifier the request
    spells in upper case is answered 200 and removes nobody. *)
Example leaveRoute_upper_case :
  leaveRoute 10 event_id BOB_UPPER
    (Some (mkEvent "Seminar" "A weekly seminar" 1000 2000 alice [bob]
             (coordinates seminar))) =
    (mkResponse OK200 "Successfully left event"
       [("attendeeCount"%string, JNumber 1); ("isAttending"%string, JBool false)],
     Some (mkEvent "Seminar" "A weekly seminar" 1000 2000 alice [bob]
             (coordinates seminar))).
Proof. reflexivity. Qed.

Lemma attend_then_leave_witness :
  ∃ joined,
    snd (attendRoute [alice; bob] 10 event_id (toString bob) (Some seminar))
      = Some joined ∧
    attendees joined = [bob] ∧
    snd (leaveRoute 20 event_id (toString bob) (Some joined)) = Some seminar.
Proof.
  destruct (attend_then_leave (H:=ops) [alice; bob] 10 20 event_id
              (@toString ops bob) seminar)
    as (joined & _ & Hj & Ha & Hback & _ & _);
    [reflexivity|reflexivity|done|reflexivity| |done|].
  - intros a Ha. by apply elem_of_nil in Ha.
  - exists joined. split; [exact Hj|]. split; [exact Ha|].
    apply Hback; [simpl; lia|reflexivity].
Defined.

(** From the start on, the leave is refused. *)
Example leaveRoute_started :
  leaveRoute 1000 event_id (toString bob)
    (Some (mkEvent "Seminar" "A weekly seminar" 1000 2000 alice [bob]
             (coordinates seminar))) =
    (mkResponse InternalError500 "Failed to leave event" [],
     Some (mkEvent "Seminar" "A weekly seminar" 1000 2000 alice [bob]
             (coordinates seminar))).
Proof. reflexivity. Qed.

Lemma attendEvent_outcome_witness :
  success (fst (attendRoute [alice; bob] 5000 event_id BOB_UPPER (Some seminar)))
    = false ∧
  snd (attendRoute [alice; bob] 5000 event_id BOB_UPPER (Some seminar))
    = Some seminar.
Proof.
  destruct (attendEvent_outcome (H:=ops) [alice; bob] 5000 event_id BOB_UPPER
              seminar) as [(Hok & _)|Hfail].
  - vm_compute in Hok. discriminate Hok.
  - exact Hfail.
Defined.

Lemma attendEvent_keeps_set_witness :
  NoDup [bob] ∧ (alice ∉ [bob]).
Proof.
  apply (attendEvent_keeps_set (H:=ops) [alice; bob] 10 event_id
           (@toString ops bob) seminar
           (@mkEvent ops "Seminar" "A weekly seminar" 1000 2000 alice [bob]
              (coordinates seminar))).
  - reflexivity.
  - apply NoDup_nil_2.
  - apply not_elem_of_nil.
  - reflexivity.
Defined.

Definition seminar_body : EventBody :=
  mkEventBody (Some "  Seminar on proofs "%string)
    (Some "A weekly seminar"%string) (Some "Room 101"%string)
    (IsoDate 1000) (IsoDate 2000) (Some "64f8a8b4c5d2e1f2a3b4c5d6"%string)
    (coordinates seminar).

Lemma createEventRoute_stored_valid_witness :
  status (fst (createEventRoute 10 seminar_body)) = Created201 ∧
  3 ≤ strlen "Seminar on proofs" ≤ 100.
Proof.
  destruct (createEventRoute_stored_valid (H:=ops) 10 seminar_body
              (@mkEvent ops "Seminar on proofs" "A weekly seminar" 1000 2000
                 alice [] (coordinates seminar)))
    as (Hst & _ & Hlen & _).
  - reflexivity.
  - split; [exact Hst|exact Hlen].
Defined.

Lemma createEventRoute_order_rejected_witness :
  fieldFails "endTime"
    (validateCreateEvent
       (mkEventBody (Some "Seminar"%string) (Some "A weekly seminar"%string)
          (Some "Room 101"%string) (IsoDate 2000) (IsoDate 1000)
          (Some "64f8a8b4c5d2e1f2a3b4c5d6"%string) [])) = true ∧
  createEventRoute 10
    (mkEventBody (Some "Seminar"%string) (Some "A weekly seminar"%string)
       (Some "Room 101"%string) (IsoDate 2000) (IsoDate 1000)
       (Some "64f8a8b4c5d2e1f2a3b4c5d6"%string) []) = (validationFailed, None).
Proof.
  apply (createEventRoute_order_rejected (H:=ops) 10 _ 2000 1000);
    [reflexivity|reflexivity|lia].
Defined.

End EventMoreExamples.

(** ** Posts: likes without duplicates, and comments *)

Section PostMore.
Context `{ObjectIdOps}.
Import PostModel.

(** No method creates a duplicate like: if [likes] holds every user at most
    once, it still does after [addLike], [removeLike] or [toggleLike]. *)
Theorem likes_keep_NoDup (userId : ObjectId) (post : Post) :
  NoDup (likes post) →
  NoDup (likes (addLike userId post)) ∧
  NoDup (likes (removeLike userId post)) ∧
  NoDup (likes (toggleLike userId post)).
Proof.
  intros Hnd.
  assert (NoDup (likes (addLike userId post))) as Hadd.
  { unfold addLike. case_bool_decide as Hin; simpl; [done|].
    apply list.NoDup_app. split_and!; [done| |apply NoDup_singleton].
    intros x Hx ->%list_elem_of_singleton. done. }
  assert (NoDup (likes (removeLike userId post))) as Hrem
    by (by apply list.NoDup_filter).
  split_and!; try done.
  unfold toggleLike. by destruct (existsb _ _).
Qed.

Lemma comments_validators_None (l : list Comment) :
  comments_validators l = None ↔ Forall (λ c, comment_validators c = None) l.
Proof.
  induction l as [|c l IH]; simpl.
  - split; [constructor|done].
  - destruct (comment_validators c) eqn:Hc.
    + split; [done|]. intros Hf. inversion Hf. congruence.
    + rewrite IH. split; [by constructor|]. intros Hf. by inversion Hf.
Qed.

Lemma comment_validators_spec (c : Comment) :
  comment_validators c = None ↔ 1 ≤ strlen (comment_content c) ≤ 500.
Proof.
  unfold comment_validators. pose proof (strlen_nonneg (comment_content c)) as Hn.
  pose proof (strlen_zero (comment_content c)) as Hz.
  case_bool_decide as Hc.
  - apply Hz in Hc. split; [done|lia].
  - assert (strlen (comment_content c) ≠ 0) by (by intros ?%Hz).
    destruct (500 <? strlen (comment_content c)) eqn:E.
    + apply Z.ltb_lt in E. split; [done|lia].
    + apply Z.ltb_ge in E. split; [lia|done].
Qed.

(** POST /api/posts/:id/comments on a post whose stored comments are valid.
    A text that is missing, empty or blank is refused with 400; a text whose
    trimmed length is from 1 to 500 is appended, trimmed, as the last
    comment, and the answer is 201 with the new count; a longer text fails
    in [save()] and is answered with 500.  The refused requests leave the
    post as it is, and the likes are never touched. *)
Theorem addCommentRoute_outcome
    (newId : ObjectId) (now : Z) (userId : ObjectId) (text : string) (post : Post) :
  comments_validators (comments post) = None →
  addCommentRoute newId now userId None (Some post) =
    (mkResponse BadRequest400 "Comment content is required" [], Some post) ∧
  (strlen (trim text) = 0 →
     addCommentRoute newId now userId (Some text) (Some post) =
       (mkResponse BadRequest400 "Comment content is required" [], Some post)) ∧
  (1 ≤ strlen (trim text) ≤ 500 →
     addCommentRoute newId now userId (Some text) (Some post) =
       (mkResponse Created201 "Comment added successfully"
          [("commentCount"%string, JNumber (Z.of_nat (commentCount post) + 1))],
        Some (mkPost (content post) (author post) (imageUrl post) (likes post)
                (comments post ++ [mkComment newId userId (trim text) now])))) ∧
  (500 < strlen (trim text) →
     addCommentRoute newId now userId (Some text) (Some post) =
       (mkResponse InternalError500 "Failed to add comment" [], Some post)).
Proof.
  intros Hvalid. split; [done|].
  assert (strlen (trim text) ≠ 0 →
          bool_decide (text = EmptyString) || (strlen (trim text) =? 0) = false)
    as Hcheck.
  { intros Hne. rewrite (proj2 (Z.eqb_neq _ _) Hne), orb_false_r.
    apply bool_decide_eq_false_2. intros ->. by apply Hne. }
  assert (comments_validators
            (comments post ++ [mkComment newId userId (trim (trim text)) now]) =
          comment_validators (mkComment newId userId (trim text) now)) as Hlast.
  { rewrite trim_idempotent.
    induction (comments post) as [|c l IH]; simpl.
    - by destruct (comment_validators _).
    - simpl in Hvalid. destruct (comment_validators c); [done|]. by apply IH. }
  split_and!.
  - intros Hz. unfold addCommentRoute.
    by rewrite (proj2 (Z.eqb_eq _ _) Hz), orb_true_r.
  - intros Hlen. unfold addCommentRoute, addComment, saveComments.
    rewrite Hcheck by lia. simpl. rewrite Hlast.
    rewrite (proj2 (comment_validators_spec _)) by (simpl; lia).
    simpl. rewrite trim_idempotent. unfold count, commentCount.
    by rewrite length_app, Nat2Z.inj_add.
  - intros Hlen. unfold addCommentRoute, addComment, saveComments.
    rewrite Hcheck by lia. simpl. rewrite Hlast.
    destruct (comment_validators (mkComment newId userId (trim text) now)) eqn:Hc;
      [done|].
    apply comment_validators_spec in Hc. simpl in Hc. lia.
Qed.

(** [removeComment] on a post whose stored comments are valid succeeds: the
    comments with the identifier are gone, the others stay in their order,
    an identifier that no comment has changes nothing, and the content and
    the likes of the post are as before. *)
Theorem removeComment_outcome (commentId : ObjectId) (post : Post) :
  comments_validators (comments post) = None →
  ∃ post',
    removeComment commentId post = Stored post' ∧
    comments post' = filter (λ c, comment_id c ≠ commentId) (comments post) ∧
    (∀ c, c ∈ comments post' → comment_id c ≠ commentId) ∧
    ((∀ c, c ∈ comments post → comment_id c ≠ commentId) → post' = post) ∧
    likes post' = likes post ∧ content post' = content post ∧
    removeCommentRoute commentId (Some post) =
      (mkResponse OK200 "Comment deleted successfully"
         [("commentCount"%string, count (comments post'))], Some post').
Proof.
  intros Hvalid.
  assert (comments_validators
            (filter (λ c, comment_id c ≠ commentId) (comments post)) = None)
    as Hf.
  { apply comments_validators_None, list.Forall_forall.
    intros c [_ Hc]%list_elem_of_filter.
    apply comments_validators_None in Hvalid.
    by apply (proj1 (list.Forall_forall _ _) Hvalid). }
  eexists. split.
  { unfold removeComment, saveComments. simpl. rewrite Hf. reflexivity. }
  simpl. split_and!; try done.
  - by intros c [Hne _]%list_elem_of_filter.
  - intros Hall. destruct post as [ct au im lk cm]. simpl in *. f_equal.
    clear Hvalid Hf. induction cm as [|c cm IH]; [done|].
    rewrite filter_cons_True by (apply Hall; by left).
    f_equal. apply IH. intros c' Hc'. apply Hall. by right.
  - unfold removeCommentRoute, removeComment, saveComments. simpl.
    by rewrite Hf.
Qed.

End PostMore.

(** ** Marketplace listings: images, and the routes without validation *)

Section ListingMore.
Context `{ObjectIdOps}.
Import ListingModel.

(** [addImage] keeps the limit of 10 images: below the limit a valid URL is
    appended, with ten images the method throws and stores nothing, and
    whatever it stores has at most 10 images, all of them valid URLs. *)
Theorem addImage_limit (imageUrl : string) (listing : MarketplaceListing) :
  imageUrls_validators (imageUrls listing) = None →
  ((List.length (imageUrls listing) < 10)%nat → imageUrlPattern imageUrl = true →
     addImage imageUrl listing =
       ImageStored (mkListing (title listing) (description listing)
                      (price listing) (seller listing)
                      (imageUrls listing ++ [imageUrl])
                      (category listing) (isAvailable listing))) ∧
  ((List.length (imageUrls listing) < 10)%nat → imageUrlPattern imageUrl = false →
     addImage imageUrl listing = ImageInvalid "Invalid image URL format") ∧
  ((10 ≤ List.length (imageUrls listing))%nat →
     addImage imageUrl listing =
       ImageLimit "Maximum of 10 images allowed per listing") ∧
  (∀ stored, addImage imageUrl listing = ImageStored stored →
     (List.length (imageUrls stored) ≤ 10)%nat ∧
     forallb imageUrlPattern (imageUrls stored) = true).
Proof.
  intros Hvalid. unfold imageUrls_validators in Hvalid.
  destruct (forallb imageUrlPattern (imageUrls listing)) eqn:Hall; [|done].
  split_and!.
  - intros Hlen Hurl. unfold addImage, imageUrls_validators.
    rewrite (proj2 (Z.ltb_lt _ _)) by lia. simpl.
    rewrite forallb_app, Hall. simpl. by rewrite Hurl.
  - intros Hlen Hurl. unfold addImage, imageUrls_validators.
    rewrite (proj2 (Z.ltb_lt _ _)) by lia. simpl.
    rewrite forallb_app, Hall. simpl. by rewrite Hurl.
  - intros Hlen. unfold addImage.
    by rewrite (proj2 (Z.ltb_ge _ _)) by lia.
  - intros stored. unfold addImage, imageUrls_validators.
    destruct (Z.of_nat (List.length (imageUrls listing)) <? 10) eqn:Hlen; [|done].
    apply Z.ltb_lt in Hlen. simpl.
    destruct (forallb imageUrlPattern (imageUrls listing ++ [imageUrl])) eqn:Hnew;
      [|done].
    intros [= <-]. simpl. rewrite length_app. simpl. split; [lia|done].
Qed.

(** Marking a listing that was available as sold and then as available, on
    the router without validation, gives back the listing; marking as sold
    twice is the same as once. *)
Theorem sold_then_available (listing : MarketplaceListing) :
  isAvailable listing = true →
  ∃ sold,
    snd (sold_api (Some listing)) = Some sold ∧
    isAvailable sold = false ∧
    snd (available_api (Some sold)) = Some listing ∧
    sold_api (Some sold) = sold_api (Some listing).
Proof.
  intros Hav. eexists; split; [reflexivity|]. simpl.
  split; [done|]. split; [|done].
  destruct listing. simpl in *. by subst.
Qed.

(** The two routes that mark a listing as sold store the same listing; they
    differ in the answer for a listing that is sold already, which only the
    route with validation refuses. *)
Theorem sold_routes_agree (id : string) (listing : MarketplaceListing) :
  isValid id = true →
  snd (soldRoute id (Some listing)) = snd (sold_api (Some listing)) ∧
  status (fst (sold_api (Some listing))) = OK200 ∧
  (status (fst (soldRoute id (Some listing))) = Conflict409 ↔
   isAvailable listing = false).
Proof.
  intros Hid. unfold soldRoute, validateMarkSold, validateObjectId.
  rewrite Hid. simpl.
  destruct listing as [t d p s i c []]; simpl; split_and!; try done.
Qed.

End ListingMore.

(** ** Pagination: the pages of a result *)

Section PaginationPages.
Import Pagination.
Context {A : Type}.

(** Consecutive chunks of [n] documents make up the first [k * n]. *)
Lemma chunks_take (n k : nat) (docs : list A) :
  List.concat (map (λ i, take n (drop (i * n) docs)) (seq 0 k)) = take (k * n) docs.
Proof.
  induction k as [|k IH]; [by rewrite take_0|].
  rewrite seq_S, map_app, concat_app, IH. simpl.
  rewrite app_nil_r, take_take_drop. f_equal. lia.
Qed.

Lemma pageOf_chunk (docs : list A) (i : nat) (qlimit : QueryParam) :
  1 ≤ parseIntOr qlimit 10 →
  pageOf docs (Integer (Z.of_nat (S i))) qlimit =
    take (Z.to_nat (parseIntOr qlimit 10))
         (drop (i * Z.to_nat (parseIntOr qlimit 10)) docs).
Proof.
  intros Hl. unfold pageOf, skip, parseIntOr at 2.
  destruct (Z.of_nat (S i) =? 0) eqn:E; [apply Z.eqb_eq in E; lia|].
  do 2 f_equal. rewrite Z2Nat.inj_mul by lia. f_equal. lia.
Qed.

Lemma limit_valid (qpage qlimit : QueryParam) :
  validatePagination qpage qlimit = true → 1 ≤ parseIntOr qlimit 10 ≤ 100.
Proof.
  intros [_ Hl]%andb_true_iff.
  destruct qlimit as [| |n]; simpl in *; try done.
  apply andb_true_iff in Hl as [Hn%Z.leb_le Hm%Z.leb_le].
  destruct (n =? 0) eqn:E; [apply Z.eqb_eq in E; lia|]. done.
Qed.

Lemma page_valid (qpage qlimit : QueryParam) :
  validatePagination qpage qlimit = true → 1 ≤ parseIntOr qpage 1.
Proof.
  intros [Hp _]%andb_true_iff.
  destruct qpage as [| |n]; simpl in *; try done.
  apply andb_true_iff in Hp as [Hn%Z.leb_le _].
  destruct (n =? 0) eqn:E; [apply Z.eqb_eq in E; lia|]. done.
Qed.

(** The pages 1 to [totalPages] of a result, one after the other, are the
    result: no document is left out and none comes twice. *)
Theorem pages_cover (docs : list A) (qpage qlimit : QueryParam) :
  validatePagination qpage qlimit = true →
  List.concat (map (λ p, pageOf docs (Integer (Z.of_nat p)) qlimit)
              (seq 1 (Z.to_nat (totalPages
                 (pagination qpage qlimit (Z.of_nat (List.length docs))))))) = docs.
Proof.
  intros Hv. pose proof (limit_valid qpage qlimit Hv) as Hl. simpl.
  set (limit := parseIntOr qlimit 10) in *.
  set (k := Z.to_nat (ceil_div (Z.of_nat (List.length docs)) limit)).
  rewrite <- fmap_S_seq, <- list_fmap_compose.
  rewrite (list_fmap_ext _ (λ i, take (Z.to_nat limit) (drop (i * Z.to_nat limit) docs)))
    by (intros i x _; simpl; by apply pageOf_chunk; lia).
  rewrite chunks_take. apply take_ge.
  pose proof (ceil_div_spec (Z.of_nat (List.length docs)) limit ltac:(lia)) as [_ Hhi].
  pose proof (ceil_div_nonneg (Z.of_nat (List.length docs)) limit ltac:(lia) ltac:(lia)).
  unfold k. nia.
Qed.

Lemma pageOf_Integer (docs : list A) (q : Z) (qlimit : QueryParam) :
  1 ≤ q →
  pageOf docs (Integer q) qlimit =
    take (Z.to_nat (parseIntOr qlimit 10))
         (drop (Z.to_nat ((q - 1) * parseIntOr qlimit 10)) docs).
Proof.
  intros Hq. unfold pageOf, skip. simpl.
  destruct (q =? 0) eqn:E; [apply Z.eqb_eq in E; lia|]. done.
Qed.

(** A page holds at most [limit] documents; it holds a document exactly if
    its number is at most [totalPages]; and [hasNext] says whether the next
    page holds one. *)
Theorem page_nonempty (docs : list A) (qpage qlimit : QueryParam) :
  validatePagination qpage qlimit = true →
  Z.of_nat (List.length (pageOf docs qpage qlimit)) ≤ parseIntOr qlimit 10 ∧
  (pageOf docs qpage qlimit ≠ [] ↔
   parseIntOr qpage 1 ≤
     totalPages (pagination qpage qlimit (Z.of_nat (List.length docs)))) ∧
  (hasNext (pagination qpage qlimit (Z.of_nat (List.length docs))) = true ↔
   pageOf docs (Integer (parseIntOr qpage 1 + 1)) qlimit ≠ []).
Proof.
  intros Hv. pose proof (limit_valid qpage qlimit Hv) as Hl.
  pose proof (page_valid qpage qlimit Hv) as Hp. simpl.
  set (limit := parseIntOr qlimit 10) in *.
  set (page := parseIntOr qpage 1) in *.
  set (total := Z.of_nat (List.length docs)).
  pose proof (ceil_div_spec total limit ltac:(lia)) as [Hlo Hhi].
  assert (∀ q, 1 ≤ q →
            (take (Z.to_nat limit) (drop (Z.to_nat ((q - 1) * limit)) docs) ≠ []
             ↔ q ≤ ceil_div total limit)) as Hpage.
  { intros q Hq.
    assert (take (Z.to_nat limit) (drop (Z.to_nat ((q - 1) * limit)) docs) ≠ []
            ↔ (q - 1) * limit < total) as ->.
    { rewrite <- length_zero_iff_nil, length_take, length_drop. unfold total.
      assert (0 ≤ (q - 1) * limit) by nia. lia. }
    split; intros; nia. }
  split_and!.
  - unfold pageOf. fold limit. rewrite length_take. lia.
  - unfold pageOf, skip. fold limit page. by apply Hpage.
  - rewrite Z.ltb_lt, pageOf_Integer by lia. fold limit.
    rewrite (Hpage (page + 1)) by lia. lia.
Qed.

End PaginationPages.

Section MoreExamples.
Import HexId Examples.

Lemma likes_keep_NoDup_witness :
  NoDup (PostModel.likes (PostModel.addLike alice liked_by_bob)) ∧
  NoDup (PostModel.likes (PostModel.removeLike alice liked_by_bob)) ∧
  NoDup (PostModel.likes (PostModel.toggleLike alice liked_by_bob)).
Proof.
  apply (likes_keep_NoDup (H:=ops) alice liked_by_bob). apply NoDup_singleton.
Defined.

Lemma addCommentRoute_outcome_witness :
  PostModel.addCommentRoute carol 77 bob (Some "  Nice post "%string)
    (Some liked_by_bob) =
    (mkResponse Created201 "Comment added successfully"
       [("commentCount"%string, JNumber 1)],
     Some (PostModel.mkPost "Hello" alice None [bob]
             [PostModel.mkComment carol bob "Nice post" 77])).
Proof.
  destruct (addCommentRoute_outcome (H:=ops) carol 77 bob "  Nice post "
              liked_by_bob eq_refl) as (_ & _ & Hok & _).
  apply Hok. by vm_compute.
Defined.

Lemma removeComment_outcome_witness :
  ∃ post',
    PostModel.removeComment carol liked_by_bob = Stored post' ∧
    PostModel.comments post' = [].
Proof.
  destruct (removeComment_outcome (H:=ops) carol liked_by_bob eq_refl)
    as (post' & Hr & Hc & _).
  exists post'. split; [exact Hr|exact Hc].
Defined.

Lemma addImage_limit_witness :
  ListingModel.addImage "https://example.com/cover.PNG" sold_book =
    ListingModel.ImageStored
      (ListingModel.mkListing "Used Textbook" (Some "Good condition"%string)
         (2599 # 100) alice
         ["https://example.com/book.jpg"; "https://example.com/cover.PNG"]%string
         ListingModel.BOOKS false).
Proof.
  destruct (addImage_limit (H:=ops) "https://example.com/cover.PNG" sold_book eq_refl)
    as (Hok & _).
  apply Hok; [simpl; lia|reflexivity].
Defined.

Lemma sold_then_available_witness :
  ∃ sold,
    snd (ListingModel.sold_api (Some (ListingModel.markAsAvailable sold_book))) =
      Some sold ∧
    ListingModel.isAvailable sold = false ∧
    snd (ListingModel.available_api (Some sold)) =
      Some (ListingModel.markAsAvailable sold_book) ∧
    ListingModel.sold_api (Some sold) =
      ListingModel.sold_api (Some (ListingModel.markAsAvailable sold_book)).
Proof.
  apply (sold_then_available (H:=ops) (ListingModel.markAsAvailable sold_book)).
  reflexivity.
Defined.

Lemma sold_routes_agree_witness :
  snd (ListingModel.soldRoute listing_id (Some sold_book)) =
    snd (ListingModel.sold_api (Some sold_book)) ∧
  status (fst (ListingModel.sold_api (Some sold_book))) = OK200 ∧
  (status (fst (ListingModel.soldRoute listing_id (Some sold_book))) = Conflict409 ↔
   ListingModel.isAvailable sold_book = false).
Proof.
  apply (sold_routes_agree (H:=ops) listing_id sold_book). reflexivity.
Defined.

Lemma pages_cover_witness :
  [1; 2] ++ [3; 4] ++ [5] ++ [] = [1; 2; 3; 4; 5].
Proof.
  apply (pages_cover [1; 2; 3; 4; 5] Pagination.Missing (Pagination.Integer 2)).
  reflexivity.
Defined.

Lemma page_nonempty_witness :
  Z.of_nat (List.length
    (Pagination.pageOf [1; 2; 3; 4; 5] (Pagination.Integer 3) (Pagination.Integer 2)))
  ≤ 2.
Proof.
  destruct (page_nonempty [1; 2; 3; 4; 5] (Pagination.Integer 3)
              (Pagination.Integer 2) eq_refl) as (Hlen & _).
  exact Hlen.
Defined.

End MoreExamples.
